(** * remove_watermark: a shallow embedding of [remove_watermark.py]

    The program removes a fixed semi-transparent overlay from every frame of a
    video: it locates the overlay once by FFT cross-correlation of the
    temporal mean frame with the template, rolls the template to that offset
    and inverts the alpha-compositing equation on every pixel.

    Modelling choices.
    - Array elements are [xnum]: an exact rational, or one of the IEEE special
      values [PInf], [NInf], [NaN].  Arithmetic follows IEEE-754 case by case
      (what a division by zero gives, how [NaN] propagates) but does not
      round; signed zeros are not distinguished (the only zero divisor the
      program forms is [1 - alpha], which is [+0] in round-to-nearest).
      What holds of [xnum] holds of the formulas over the rationals; where
      rounding decides a property, the recovery formula is also given on
      binary64 floating-point numbers (module [Binary64]).
    - numpy arrays and torch tensors are nested lists tagged with the backend
      ([pyobj]); [OtherObject] stands for every Python value that is neither.
      Two element types are told apart, [uint8] and floating point
      ([ndarray]); the memoisation of the template is not modelled (the
      template is read from [load_image], which is a function).
    - Exceptions are values of [exn] threaded through the [result] monad.
    - Functions imported from [rp], [cv2] and the FFT packages are not part of
      the repository: they are the fields of the class [Externals]. *)

From Stdlib Require Import String Strings.Byte Bool ZArith Lia QArith Qcanon List.
From Stdlib Require PrimFloat.
Import ListNotations.

Set Implicit Arguments.
Open Scope nat_scope.

(* ------------------------------------------------------------------------ *)
(** ** Exceptions and the [result] monad *)

Inductive exn : Type :=
| TypeError (msg : string)
| AssertionError (msg : string)
| ValueError (msg : string).

Inductive result (A : Type) : Type :=
| Ok (a : A)
| Raise (e : exn).

Arguments Ok {A} a.
Arguments Raise {A} e.

Definition bind {A B : Type} (m : result A) (k : A -> result B) : result B :=
  match m with
  | Ok a => k a
  | Raise e => Raise e
  end.

Declare Scope result_scope.
Delimit Scope result_scope with result.
Notation "x <- m ;; k" := (bind m (fun x => k))
  (at level 61, m at next level, right associativity) : result_scope.
Notation "' pat <- m ;; k" := (bind m (fun x => match x with pat => k end))
  (at level 61, pat pattern, m at next level, right associativity) : result_scope.
Open Scope result_scope.

Definition py_assert (b : bool) (msg : string) : result unit :=
  if b then Ok tt else Raise (AssertionError msg).

(* ------------------------------------------------------------------------ *)
(** ** Scalars: exact rationals with the IEEE special values *)

Inductive xnum : Type :=
| Fin (q : Qc)
| PInf
| NInf
| NaN.

Definition qc_of_Z (z : Z) : Qc := Q2Qc (inject_Z z).

Definition xzero : xnum := Fin (qc_of_Z 0).
Definition xone : xnum := Fin (qc_of_Z 1).
Definition xhalf : xnum := Fin (Q2Qc (1 # 2)).
Definition x255 : xnum := Fin (qc_of_Z 255).

Definition xof_nat (n : nat) : xnum := Fin (qc_of_Z (Z.of_nat n)).
Definition xof_byte (b : byte) : xnum := Fin (qc_of_Z (Z.of_N (Byte.to_N b))).

(** The special value a nonzero-by-sign operation yields: [c] is the sign of
    the finite operand (or of the quotient's numerator). *)
Definition inf_of_sign (c : comparison) : xnum :=
  match c with
  | Eq => NaN
  | Gt => PInf
  | Lt => NInf
  end.

Definition flip_sign (c : comparison) : comparison := CompOpp c.

Definition qsign (q : Qc) : comparison := Qccompare q (qc_of_Z 0).

Definition xopp (x : xnum) : xnum :=
  match x with
  | Fin q => Fin (- q)%Qc
  | PInf => NInf
  | NInf => PInf
  | NaN => NaN
  end.

Definition xadd (x y : xnum) : xnum :=
  match x, y with
  | NaN, _ | _, NaN => NaN
  | Fin a, Fin b => Fin (a + b)%Qc
  | PInf, NInf | NInf, PInf => NaN
  | PInf, _ | _, PInf => PInf
  | NInf, _ | _, NInf => NInf
  end.

Definition xsub (x y : xnum) : xnum := xadd x (xopp y).

Definition xmul (x y : xnum) : xnum :=
  match x, y with
  | NaN, _ | _, NaN => NaN
  | Fin a, Fin b => Fin (a * b)%Qc
  | Fin a, PInf | PInf, Fin a => inf_of_sign (qsign a)
  | Fin a, NInf | NInf, Fin a => inf_of_sign (flip_sign (qsign a))
  | PInf, PInf | NInf, NInf => PInf
  | PInf, NInf | NInf, PInf => NInf
  end.

(** IEEE division.  A finite numerator over a zero denominator gives an
    infinity of the numerator's sign, and [0 / 0] gives [NaN]: the
    "division-by-zero branch". *)
Definition xdiv (x y : xnum) : xnum :=
  match x, y with
  | NaN, _ | _, NaN => NaN
  | Fin a, Fin b =>
      match qsign b with
      | Eq => inf_of_sign (qsign a)
      | _ => Fin (a / b)%Qc
      end
  | Fin _, (PInf | NInf) => xzero
  | PInf, Fin b => match qsign b with Lt => NInf | _ => PInf end
  | NInf, Fin b => match qsign b with Lt => PInf | _ => NInf end
  | (PInf | NInf), (PInf | NInf) => NaN
  end.

(** [x < y] as IEEE compares: false as soon as one side is [NaN]. *)
Definition xltb (x y : xnum) : bool :=
  match x, y with
  | NaN, _ | _, NaN => false
  | Fin a, Fin b => match Qccompare a b with Lt => true | _ => false end
  | NInf, NInf => false
  | NInf, _ => true
  | _, NInf => false
  | PInf, _ => false
  | _, PInf => true
  end.

Definition is_nan (x : xnum) : bool :=
  match x with NaN => true | _ => false end.

(** [np.maximum] and [np.minimum]: a [NaN] operand is propagated. *)
Definition xmax (x y : xnum) : xnum :=
  if is_nan x then x else if is_nan y then y else if xltb x y then y else x.

Definition xmin (x y : xnum) : xnum :=
  if is_nan x then x else if is_nan y then y else if xltb y x then y else x.

(** Elementwise [np.clip] / [torch.clamp] on one scalar. *)
Definition clip1 (lo hi : xnum) (x : xnum) : xnum := xmin (xmax x lo) hi.

(** The propositional order on scalars used in statements. *)
Definition xle (x y : xnum) : Prop :=
  match x, y with
  | Fin a, Fin b => (a <= b)%Qc
  | NInf, (Fin _ | PInf | NInf) => True
  | Fin _, PInf => True
  | PInf, PInf => True
  | _, _ => False
  end.

Definition is_fin (x : xnum) : Prop :=
  match x with Fin _ => True | _ => False end.

Definition in_unit (x : xnum) : Prop := xle xzero x /\ xle x xone.

(* ------------------------------------------------------------------------ *)
(** ** Arrays: nested lists, outermost axis first *)

Definition matrix (A : Type) : Type := list (list A).
Definition tensor3 (A : Type) : Type := list (list (list A)).
Definition tensor4 (A : Type) : Type := list (list (list (list A))).

Definition map2 {A B : Type} (f : A -> B) : matrix A -> matrix B :=
  map (map f).
Definition map3 {A B : Type} (f : A -> B) : tensor3 A -> tensor3 B :=
  map (map2 f).
Definition map4 {A B : Type} (f : A -> B) : tensor4 A -> tensor4 B :=
  map (map3 f).

(** [tabulate n f] is [[f 0; ...; f (n-1)]]. *)
Definition tabulate {A : Type} (n : nat) (f : nat -> A) : list A :=
  map f (seq 0 n).

(** Indexing with a default, for statements and for the axis permutations. *)
Definition at2 {A : Type} (d : A) (m : matrix A) (i j : nat) : A :=
  nth j (nth i m []) d.
Definition at3 {A : Type} (d : A) (m : tensor3 A) (i j k : nat) : A :=
  nth k (nth j (nth i m []) []) d.
Definition at4 {A : Type} (d : A) (m : tensor4 A) (i j k l : nat) : A :=
  nth l (nth k (nth j (nth i m []) []) []) d.

(** Shapes as numpy reports them on a rectangular array. *)
Definition shape2 {A : Type} (m : matrix A) : nat * nat :=
  (length m, length (hd [] m)).
Definition shape3 {A : Type} (m : tensor3 A) : nat * nat * nat :=
  (length m, length (hd [] m), length (hd [] (hd [] m))).

(** Rectangularity: what every numpy array and torch tensor satisfies. *)
Definition rect1 {A : Type} (n : nat) (l : list A) : Prop := length l = n.
Definition rect2 {A : Type} (h w : nat) (m : matrix A) : Prop :=
  length m = h /\ Forall (rect1 w) m.
Definition rect3 {A : Type} (h w c : nat) (m : tensor3 A) : Prop :=
  length m = h /\ Forall (rect2 w c) m.
Definition rect4 {A : Type} (t h w c : nat) (m : tensor4 A) : Prop :=
  length m = t /\ Forall (rect3 h w c) m.

(** *** numpy broadcasting *)

Definition broadcast_error : exn :=
  ValueError "operands could not be broadcast together".

Fixpoint zip_with_r {A B C : Type} (f : A -> B -> result C)
    (xs : list A) (ys : list B) : result (list C) :=
  match xs, ys with
  | [], [] => Ok []
  | x :: xs', y :: ys' =>
      c <- f x y ;; cs <- zip_with_r f xs' ys' ;; Ok (c :: cs)
  | _, _ => Raise broadcast_error
  end.

Fixpoint map_r {A B : Type} (f : A -> result B) (xs : list A)
    : result (list B) :=
  match xs with
  | [] => Ok []
  | x :: xs' => c <- f x ;; cs <- map_r f xs' ;; Ok (c :: cs)
  end.

(** One axis of a binary ufunc: equal lengths pair up, a length-1 axis is
    stretched, anything else is a shape error. *)
Definition broadcast {A B C : Type} (f : A -> B -> result C)
    (xs : list A) (ys : list B) : result (list C) :=
  if Nat.eqb (length xs) (length ys) then zip_with_r f xs ys
  else
    match xs, ys with
    | [x], _ => map_r (fun y => f x y) ys
    | _, [y] => map_r (fun x => f x y) xs
    | _, _ => Raise broadcast_error
    end.

Definition bc1 {A : Type} (f : A -> A -> A) : list A -> list A -> result (list A) :=
  broadcast (fun a b => Ok (f a b)).
Definition bc2 {A : Type} (f : A -> A -> A)
    : matrix A -> matrix A -> result (matrix A) :=
  broadcast (bc1 f).
Definition bc3 {A : Type} (f : A -> A -> A)
    : tensor3 A -> tensor3 A -> result (tensor3 A) :=
  broadcast (bc2 f).
(** A 4-axis operand against a 3-axis one: numpy prepends an axis of
    length 1 to the operand of lower rank. *)
Definition bc43 {A : Type} (f : A -> A -> A)
    (v : tensor4 A) (m : tensor3 A) : result (tensor4 A) :=
  broadcast (bc3 f) v [m].

(** *** Slicing, rolling, reductions *)

(** [a[:, :, :k]] and [a[:, :, k:]]. *)
Definition slice_channels_to {A : Type} (k : nat) : tensor3 A -> tensor3 A :=
  map (map (firstn k)).
Definition slice_channels_from {A : Type} (k : nat) : tensor3 A -> tensor3 A :=
  map (map (skipn k)).

(** [np.roll] along one axis: the element at index [i] moves to index
    [(i + shift) mod n]. *)
Definition roll1 {A : Type} (shift : Z) (l : list A) : list A :=
  let n := length l in
  let k := Z.to_nat (shift mod Z.of_nat n) in
  skipn (n - k) l ++ firstn (n - k) l.

(** [np.roll(x, (sy, sx), axis=(0, 1))]. *)
Definition roll01 {A : Type} (sy sx : Z) (m : list (list A)) : list (list A) :=
  map (roll1 sx) (roll1 sy m).

(** [np.fft.fftshift] of a 2-D array: every axis rolled by half its length. *)
Definition fftshift2 {A : Type} (m : matrix A) : matrix A :=
  let '(h, w) := shape2 m in
  roll01 (Z.of_nat (h / 2)) (Z.of_nat (w / 2)) m.

Fixpoint zip_with {A B C : Type} (f : A -> B -> C) (xs : list A) (ys : list B)
    : list C :=
  match xs, ys with
  | x :: xs', y :: ys' => f x y :: zip_with f xs' ys'
  | _, _ => []
  end.

(** Elementwise sum of two frames of one shape. *)
Definition add3 : tensor3 xnum -> tensor3 xnum -> tensor3 xnum :=
  zip_with (zip_with (zip_with xadd)).

(** [video.mean(0)]: the sum of the frames over their number.  (A video
    with no frame at all has no frame to take the shape of the mean from; the
    properties below are about videos with at least one frame.) *)
Definition mean0 (video : tensor4 xnum) : tensor3 xnum :=
  match video with
  | [] => []
  | f :: fs => map3 (fun s => xdiv s (xof_nat (length video))) (fold_left add3 fs f)
  end.

(** [np.argmax] over the flattened array: the first position holding the
    maximum, where a [NaN] counts as larger than every number. *)
Definition beats (x best : xnum) : bool :=
  if is_nan best then false else if is_nan x then true else xltb best x.

Fixpoint argmax_from (best : xnum) (besti i : nat) (l : list xnum) : nat :=
  match l with
  | [] => besti
  | x :: l' =>
      if beats x best then argmax_from x i (S i) l'
      else argmax_from best besti (S i) l'
  end.

Definition np_argmax (m : matrix xnum) : result nat :=
  match concat m with
  | [] => Raise (ValueError "attempt to get argmax of an empty sequence")
  | x :: l => Ok (argmax_from x 0 1 l)
  end.

(** [np.unravel_index] for a 2-D shape. *)
Definition np_unravel_index (i : nat) (shape : nat * nat) : nat * nat :=
  (i / snd shape, i mod snd shape).

(** *** Axis permutations of [einops.rearrange] *)

Section Rearrange.
Context {A : Type} (d : A).

(** ['C H W -> H W C'] on one frame. *)
Definition chw_to_hwc (f : tensor3 A) : tensor3 A :=
  let '(c, h, w) := shape3 f in
  tabulate h (fun y => tabulate w (fun x => tabulate c (fun k => at3 d f k y x))).

(** ['H W C -> C H W'] on one frame. *)
Definition hwc_to_chw (f : tensor3 A) : tensor3 A :=
  let '(h, w, c) := shape3 f in
  tabulate c (fun k => tabulate h (fun y => tabulate w (fun x => at3 d f y x k))).

(** ['T C H W -> T H W C'] and back. *)
Definition tchw_to_thwc (v : tensor4 A) : tensor4 A := map chw_to_hwc v.
Definition thwc_to_tchw (v : tensor4 A) : tensor4 A := map hwc_to_chw v.

End Rearrange.

(* ------------------------------------------------------------------------ *)
(** ** Python values: the two array backends and everything else *)

Inductive backend : Type := numpy | torch.

Inductive pyobj (A : Type) : Type :=
| Array (lib : backend) (a : A)
| OtherObject.

Arguments Array {A} lib a.
Arguments OtherObject {A}.

(** The element type of an array: [uint8] or floating point.  [T] is the
    rank ([tensor3], [tensor4]). *)
Inductive ndarray (T : Type -> Type) : Type :=
| UInt8 (d : T byte)
| Float (d : T xnum).

Arguments UInt8 {T} d.
Arguments Float {T} d.

Definition is_numpy_array {A : Type} (x : pyobj A) : bool :=
  match x with Array numpy _ => true | _ => false end.

Definition is_torch_tensor {A : Type} (x : pyobj A) : bool :=
  match x with Array torch _ => true | _ => false end.

(** A method or operator applied to an array keeps its backend; on any other
    object it raises (the model does not tell apart which exception Python
    raises there: no path of the program depends on it). *)
Definition py_apply {A B : Type} (f : A -> B) (x : pyobj A) : result (pyobj B) :=
  match x with
  | Array lib a => Ok (Array lib (f a))
  | OtherObject => Raise (TypeError "unsupported operand")
  end.

Definition backend_eqb (a b : backend) : bool :=
  match a, b with
  | numpy, numpy | torch, torch => true
  | _, _ => false
  end.

(** A binary operator between two arrays of one backend. *)
Definition py_binop {A B C : Type} (f : A -> B -> result C)
    (x : pyobj A) (y : pyobj B) : result (pyobj C) :=
  match x, y with
  | Array l1 a, Array l2 b =>
      if backend_eqb l1 l2 then c <- f a b ;; Ok (Array l1 c)
      else Raise (TypeError "unsupported operand")
  | _, _ => Raise (TypeError "unsupported operand")
  end.

(** [x.shape] of a 3-axis array. *)
Definition py_shape3 {A : Type} (x : pyobj (tensor3 A)) : result (nat * nat * nat) :=
  match x with
  | Array _ a => Ok (shape3 a)
  | OtherObject => Raise (TypeError "unsupported operand")
  end.

(** [rp.as_numpy_array]: the numpy array holding the same values. *)
Definition as_numpy_array {A : Type} (x : pyobj A) : result A :=
  match x with
  | Array _ a => Ok a
  | OtherObject => Raise (TypeError "unsupported operand")
  end.

Definition unsupported : exn := TypeError "Unsupported input type".

(* ------------------------------------------------------------------------ *)
(** ** What the program imports *)

Class Externals : Type := {
  (** [rp.load_image(path, use_cache=True)] *)
  load_image : string -> ndarray tensor3;
  (** [rp.crop_image(image, height, width)] *)
  crop_image : tensor3 xnum -> nat -> nat -> result (tensor3 xnum);
  (** [rp.blend_images(bot, top)] with a scalar bottom layer *)
  blend_images : xnum -> tensor3 xnum -> tensor3 xnum;
  (** [rp.cv_gauss_blur(image, sigma)] *)
  cv_gauss_blur : tensor3 xnum -> nat -> tensor3 xnum;
  (** [rp.as_grayscale_image] *)
  as_grayscale_image : tensor3 xnum -> matrix xnum;
  (** complex numbers: [*], [.conj()], [.real] *)
  cnum : Type;
  cmul : cnum -> cnum -> cnum;
  cconj : cnum -> cnum;
  creal : cnum -> xnum;
  (** [np.fft.fft2], [np.fft.ifft2], [torch.fft.fft2], [torch.fft.ifft2] *)
  np_fft2 : matrix xnum -> matrix cnum;
  np_ifft2 : matrix cnum -> matrix cnum;
  torch_fft2 : matrix xnum -> matrix cnum;
  torch_ifft2 : matrix cnum -> matrix cnum
}.

(** What the documentation of the imported functions promises about shapes.
    [crop_fits] is the part of [crop_image] the program relies on when the
    template is at least as large as the frame.  The shape laws are stated
    for every number of channels; the [rp] functions themselves assert that
    a frame is an image (1, 3 or 4 channels), so on other frames the program
    raises at that assertion, earlier than the model does and with another
    exception. *)
Class ExternalsOK (E : Externals) : Prop := {
  crop_fits : forall img H W C h w,
    rect3 H W C img -> 0 < H -> h <= H -> w <= W ->
    crop_image img h w = Ok (map (firstn w) (firstn h img));
  blend_shape : forall g img H W C,
    rect3 H W C img -> exists C', rect3 H W C' (blend_images g img);
  blur_shape : forall img s H W C,
    rect3 H W C img -> rect3 H W C (cv_gauss_blur img s);
  gray_shape : forall img H W C,
    rect3 H W C img -> rect2 H W (as_grayscale_image img);
  np_fft2_shape : forall m H W, rect2 H W m -> rect2 H W (np_fft2 m);
  np_ifft2_shape : forall m H W, rect2 H W m -> rect2 H W (np_ifft2 m)
}.

Section Program.
Context {E : Externals}.

(* ------------------------------------------------------------------------ *)
(** ** The format adapter (lines 13-58) *)

Definition _is_uint8 {T : Type -> Type} (x : pyobj (ndarray T)) : result bool :=
  match x with
  | Array numpy a => Ok (match a with UInt8 _ => true | Float _ => false end)
  | Array torch a => Ok (match a with UInt8 _ => true | Float _ => false end)
  | OtherObject => Raise unsupported
  end.

Definition _fft2 (x : pyobj (matrix xnum)) : result (pyobj (matrix cnum)) :=
  match x with
  | Array numpy a => Ok (Array numpy (np_fft2 a))
  | Array torch a => Ok (Array torch (torch_fft2 a))
  | OtherObject => Raise unsupported
  end.

Definition _ifft2 (x : pyobj (matrix cnum)) : result (pyobj (matrix cnum)) :=
  match x with
  | Array numpy a => Ok (Array numpy (np_ifft2 a))
  | Array torch a => Ok (Array torch (torch_ifft2 a))
  | OtherObject => Raise unsupported
  end.

Definition _fftshift {A : Type} (x : pyobj (matrix A)) : result (pyobj (matrix A)) :=
  match x with
  | Array numpy a => Ok (Array numpy (fftshift2 a))
  | Array torch a => Ok (Array torch (fftshift2 a))
  | OtherObject => Raise unsupported
  end.

Definition _clip (x : pyobj (tensor4 xnum)) (min_val max_val : xnum)
    : result (pyobj (tensor4 xnum)) :=
  match x with
  | Array numpy a => Ok (Array numpy (map4 (clip1 min_val max_val) a))
  | Array torch a => Ok (Array torch (map4 (clip1 min_val max_val) a))
  | OtherObject => Raise unsupported
  end.

(** [_roll(x, shift, dims)] at its one call site, [dims = (0, 1)].
    [torch.roll] takes its shifts as 64-bit integers; the program passes it
    offsets within the frame, and statements about other shifts ask that
    they are [int64]. *)
Definition _roll {A : Type} (x : pyobj (list (list A))) (shift : Z * Z)
    : result (pyobj (list (list A))) :=
  match x with
  | Array numpy a => Ok (Array numpy (roll01 (fst shift) (snd shift) a))
  | Array torch a => Ok (Array torch (roll01 (fst shift) (snd shift) a))
  | OtherObject => Raise unsupported
  end.

Definition _default_form {A : Type} (x : pyobj A) : result string :=
  if is_numpy_array x then Ok "THWC"%string
  else if is_torch_tensor x then Ok "TCHW"%string
  else Raise unsupported.

(** Line 57 also moves the converted array to the target's device and
    casts it to the target's dtype; the model has one floating-point type,
    so neither shows. *)
Definition _like {A B : Type} (x : pyobj A) (target : pyobj B) : result (pyobj A) :=
  if is_numpy_array x && is_numpy_array target then Ok x
  else if is_torch_tensor x && is_torch_tensor target then Ok x
  else if is_torch_tensor x && is_numpy_array target then
    a <- as_numpy_array x ;; Ok (Array numpy a)
  else if is_numpy_array x && is_torch_tensor target then
    a <- as_numpy_array x ;; Ok (Array torch a)
  else Raise (TypeError "Unsupported input types").

(* ------------------------------------------------------------------------ *)
(** ** The watermark asset (lines 60-66) *)

Definition is_rgba_image (img : ndarray tensor3) : bool :=
  match img with
  | UInt8 d => forallb (forallb (fun px => Nat.eqb (length px) 4)) d
  | Float d => forallb (forallb (fun px => Nat.eqb (length px) 4)) d
  end.

Definition is_float_image (img : ndarray tensor3) : bool :=
  match img with UInt8 _ => false | Float _ => true end.

Definition _get_watermark_image : result (tensor3 xnum) :=
  let watermark := load_image "watermark.exr" in
  _ <- py_assert (is_rgba_image watermark) "Without alpha, the watermark is useless" ;;
  _ <- py_assert (is_float_image watermark)
         "Watermark should ideally be saved with floating-point precision" ;;
  match watermark with
  | Float d => Ok d
  | UInt8 _ => Raise (AssertionError "unreachable")
  end.

(* ------------------------------------------------------------------------ *)
(** ** Background recovery (lines 110-120) *)

Definition recover_background (composite_images : pyobj (tensor4 xnum))
    (rgba_watermark : pyobj (tensor3 xnum)) : result (pyobj (tensor4 xnum)) :=
  watermark_rgb <- py_apply (slice_channels_to 3) rgba_watermark ;;
  watermark_alpha <- py_apply (slice_channels_from 3) rgba_watermark ;;
  weighted <- py_binop (bc3 xmul) watermark_alpha watermark_rgb ;;
  numerator <- py_binop (bc43 xsub) composite_images weighted ;;
  denominator <- py_apply (map3 (xsub xone)) watermark_alpha ;;
  background <- py_binop (bc43 xdiv) numerator denominator ;;
  _clip background xzero xone.

(* ------------------------------------------------------------------------ *)
(** ** Shift detection (lines 122-158) *)

Definition cross_corr (img1 img2 : matrix xnum) : result (matrix xnum) :=
  fft1 <- _fft2 (Array numpy img1) ;;
  fft2 <- _fft2 (Array numpy img2) ;;
  fft2_conj <- py_apply (map2 cconj) fft2 ;;
  cross_fft <- py_binop (bc2 cmul) fft1 fft2_conj ;;
  cc <- _ifft2 cross_fft ;;
  cc <- _fftshift cc ;;
  cc <- as_numpy_array cc ;;
  Ok (map2 creal cc).

Definition best_shift (frame watermark : matrix xnum) : result (Z * Z) :=
  corr <- cross_corr frame watermark ;;
  flat <- np_argmax corr ;;
  let max_loc := np_unravel_index flat (shape2 corr) in
  let dy := (Z.of_nat (fst max_loc) - Z.of_nat (fst (shape2 watermark) / 2))%Z in
  let dx := (Z.of_nat (snd max_loc) - Z.of_nat (snd (shape2 watermark) / 2))%Z in
  Ok (dx, dy).

Definition get_shifts (avg_frame watermark : pyobj (tensor3 xnum)) : result (Z * Z) :=
  zavg_frame <- as_numpy_array avg_frame ;;
  zwatermark <- as_numpy_array watermark ;;
  let zwatermark := map3 (fun v => xsub v xhalf) (blend_images xhalf zwatermark) in
  zavg_frame <- bc3 xsub zavg_frame (cv_gauss_blur zavg_frame 20) ;;
  let zavg_frame := as_grayscale_image zavg_frame in
  let zwatermark := as_grayscale_image zwatermark in
  best_shift zavg_frame zwatermark.

(* ------------------------------------------------------------------------ *)
(** ** The orchestrator (lines 69-108 and 160-180) *)

(** One [uint8] level over 255. *)
Definition scale_byte (b : byte) : xnum := xdiv (xof_byte b) x255.

(** [video / 255] on a [uint8] array: true division, the result is floating. *)
Definition true_divide_255 (a : ndarray tensor4) : tensor4 xnum :=
  match a with
  | UInt8 d => map4 scale_byte d
  | Float d => map4 (fun v => xdiv v x255) d
  end.

(** The values of an array that is used as it is. *)
Definition values_of (a : ndarray tensor4) : tensor4 xnum :=
  match a with
  | UInt8 d => map4 xof_byte d
  | Float d => d
  end.

(** Lines 163-180: everything after the scaling of the input. *)
Definition process_frames (video : pyobj (tensor4 xnum))
    : result (pyobj (ndarray tensor4)) :=
  avg_frame <- py_apply mean0 video ;;
  watermark <- _get_watermark_image ;;
  '(h, w, _) <- py_shape3 avg_frame ;;
  watermark <- crop_image watermark h w ;;
  watermark <- _like (Array numpy watermark) avg_frame ;;
  '(best_x_shift, best_y_shift) <- get_shifts avg_frame watermark ;;
  best_watermark <- _roll watermark (best_y_shift, best_x_shift) ;;
  recovered <- recover_background video best_watermark ;;
  py_apply Float recovered.

(** Lines 160-180: the body reached with [form = 'THWC']. *)
Definition remove_watermark_thwc (video : pyobj (ndarray tensor4))
    : result (pyobj (ndarray tensor4)) :=
  is_u8 <- _is_uint8 video ;;
  video <- (if is_u8 : bool then py_apply true_divide_255 video
            else py_apply values_of video) ;;
  process_frames video.

(** [einops.rearrange] on either element type. *)
Definition rearrange_tchw_thwc (a : ndarray tensor4) : ndarray tensor4 :=
  match a with
  | UInt8 d => UInt8 (tchw_to_thwc x00 d)
  | Float d => Float (tchw_to_thwc NaN d)
  end.

Definition rearrange_thwc_tchw (a : ndarray tensor4) : ndarray tensor4 :=
  match a with
  | UInt8 d => UInt8 (thwc_to_tchw x00 d)
  | Float d => Float (thwc_to_tchw NaN d)
  end.

Definition form_ok (form : string) : bool :=
  String.eqb form "TCHW" || String.eqb form "THWC".

(** The recursive call of line 106 passes [form = 'THWC'], which skips the
    layout branch and runs the body: it is [remove_watermark_thwc].
    [einops.rearrange] of line 105 is modelled on arrays; it also takes a
    Python list of arrays, which it stacks, so what the model says of
    [OtherObject] under ['TCHW'] is not a statement about such lists. *)
Definition remove_watermark (video : pyobj (ndarray tensor4))
    (form : option string) : result (pyobj (ndarray tensor4)) :=
  form <- match form with
          | None => _default_form video
          | Some f => Ok f
          end ;;
  _ <- py_assert (form_ok form) "form in ['TCHW', 'THWC']" ;;
  if String.eqb form "TCHW" then
    video <- py_apply rearrange_tchw_thwc video ;;
    recovered <- remove_watermark_thwc video ;;
    py_apply rearrange_thwc_tchw recovered
  else remove_watermark_thwc video.

End Program.

(* ------------------------------------------------------------------------ *)
(** ** Definitions used to state the properties *)

(** Elementwise predicates on arrays. *)
Definition all3 {A : Type} (P : A -> Prop) (m : tensor3 A) : Prop :=
  Forall (Forall (Forall P)) m.
Definition all4 {A : Type} (P : A -> Prop) (m : tensor4 A) : Prop :=
  Forall (all3 P) m.

(** The alpha channel of an RGBA pixel and of an RGBA image position. *)
Definition alpha_at (wm : tensor3 xnum) (y x : nat) : xnum := at3 NaN wm y x 3.

(** The background-recovery formula of section 4.4 on one pixel value [c]
    under watermark colour [r] and opacity [a]. *)
Definition recover1 (c r a : xnum) : xnum :=
  clip1 xzero xone (xdiv (xsub c (xmul a r)) (xsub xone a)).

(** Alpha compositing of one value, as the glossary writes it:
    [alpha * overlay + (1 - alpha) * background]. *)
Definition composite1 (b r a : xnum) : xnum :=
  xadd (xmul a r) (xmul (xsub xone a) b).

(** A video synthesised by compositing the RGBA image [wm] over every frame
    of [background]. *)
Definition synthesize (background : tensor4 xnum) (wm : tensor3 xnum) : tensor4 xnum :=
  map (fun frame =>
         zip_with (zip_with (fun bpx wpx =>
           map (fun '(b, r) => composite1 b r (nth 3 wpx NaN))
               (combine bpx (firstn 3 wpx)))) frame wm)
      background.

(** Modelled from the spec: [crop_to(h, w)] of section 4.2 and the
    DimensionMismatch of section 7.  The program calls [rp.crop_image], whose
    code is not part of the source tree. *)
Definition crop_to {A : Type} (template : tensor3 A) (h w : nat)
    : result (tensor3 A) :=
  let '(H, W, _) := shape3 template in
  if (h <=? H) && (w <=? W) then Ok (map (firstn w) (firstn h template))
  else Raise (ValueError "DimensionMismatch").

(** The layout [remove_watermark] works in: the one given, or the default of
    the video's backend. *)
Definition layout_of (lib : backend) (form : option string) : string :=
  match form with
  | Some f => f
  | None => match lib with numpy => "THWC" | torch => "TCHW" end
  end.

(** The shape of a video of [t] frames of [h] by [w] RGB pixels in a layout. *)
Definition video_dims (layout : string) (t h w : nat) : nat * nat * nat * nat :=
  if String.eqb layout "TCHW" then (t, 3, h, w) else (t, h, w, 3).

Definition has_shape (a : ndarray tensor4) (s : nat * nat * nat * nat) : Prop :=
  let '(n1, n2, n3, n4) := s in
  match a with
  | UInt8 d => rect4 n1 n2 n3 n4 d
  | Float d => rect4 n1 n2 n3 n4 d
  end.

(** The values of a floating video are numbers; a [uint8] video holds
    nothing else. *)
Definition finite_values (a : ndarray tensor4) : Prop :=
  match a with
  | UInt8 _ => True
  | Float d => all4 is_fin d
  end.

(** Predicates on the pixels (channel vectors) of an image. *)
Definition all_pixels {A : Type} (P : list A -> Prop) (m : tensor3 A) : Prop :=
  Forall (Forall P) m.

(** The opacity stored in an RGBA pixel. *)
Definition alpha_of (px : list xnum) : xnum := nth 3 px NaN.

(** The divisor test of [xdiv]: true exactly on the divisors that send a
    finite numerator into the division-by-zero branch. *)
Definition zero_divisor (y : xnum) : bool :=
  match y with
  | Fin b => match qsign b with Eq => true | _ => false end
  | _ => false
  end.

(** The template the program can work with: an RGBA floating image of [H]
    by [W] pixels whose values are numbers and whose opacity is never 1
    (section 4.4: "callers must ensure the template's alpha never reaches 1.0
    exactly"). *)
Definition valid_template (E : Externals) (H W : nat) : Prop :=
  exists tpl,
    load_image "watermark.exr" = Float tpl /\ rect3 H W 4 tpl /\
    all3 is_fin tpl /\ all_pixels (fun px => alpha_of px <> xone) tpl.

(** Arrays given by their entries. *)
Definition table2 {A : Type} (h w : nat) (f : nat -> nat -> A) : matrix A :=
  tabulate h (fun y => tabulate w (f y)).
Definition table3 {A : Type} (h w c : nat) (f : nat -> nat -> nat -> A) : tensor3 A :=
  tabulate h (fun y => table2 w c (f y)).
Definition table4 {A : Type} (t h w c : nat) (f : nat -> nat -> nat -> nat -> A)
    : tensor4 A :=
  tabulate t (fun i => table3 h w c (f i)).

(* ------------------------------------------------------------------------ *)
(** ** The recovery formula in binary64

    numpy computes lines 117-120 on floating-point numbers.  The same
    operations on one value, in the order the source writes them, over IEEE
    binary64 (round to nearest even): this is where rounding shows. *)

Module Binary64.
Import PrimFloat.
Local Open Scope float_scope.

(** [np.maximum] and [np.minimum], which propagate a NaN operand (every
    comparison with NaN is false), composed as [np.clip] composes them. *)
Definition clip (x lo hi : float) : float :=
  let m := if ltb x lo then lo else x in
  if ltb hi m then hi else m.

(** Lines 117-120 on one value. *)
Definition recover1 (c r a : float) : float :=
  clip ((c - a * r) / (1 - a)) 0 1.

(** [alpha * overlay + (1 - alpha) * background]. *)
Definition composite1 (b r a : float) : float :=
  a * r + (1 - a) * b.


Definition in_unit (x : float) : bool := leb 0 x && leb x 1.



End Binary64.

(* ------------------------------------------------------------------------ *)
(** ** An executable instance of the imports, for frames up to 2 by 2

    The model can be run once the imported functions are given.  This
    instance is exact where exact arithmetic allows it and says so where it
    does not:
    - the discrete Fourier transform of an axis of length 1 or 2 is real
      ([X0 = x0 + x1], [X1 = x0 - x1]), so complex numbers are [xnum]s; on a
      longer axis the transform is not rational and every entry is [NaN];
    - the Gaussian blur, whose sigma of 20 is far wider than such a frame,
      returns the mean of the frame at every pixel, channel by channel;
    - the grayscale value of a pixel is the mean of its channels;
    - blending pulls every value half-way towards the gray level;
    - cropping is [crop_to]. *)

Definition dft_axis {A : Type} (add sub : A -> A -> A) (undefined : A -> A)
    (l : list A) : list A :=
  match l with
  | [a] => [a]
  | [a; b] => [add a b; sub a b]
  | _ => map undefined l
  end.

Definition small_dft2 (m : matrix xnum) : matrix xnum :=
  dft_axis (zip_with xadd) (zip_with xsub) (map (fun _ => NaN))
    (map (dft_axis xadd xsub (fun _ => NaN)) m).

Definition small_idft2 (m : matrix xnum) : matrix xnum :=
  let '(h, w) := shape2 m in
  map2 (fun v => xdiv v (xof_nat (h * w))) (small_dft2 m).

Definition channel_mean (px : list xnum) : xnum :=
  xdiv (fold_left xadd px xzero) (xof_nat (length px)).

Definition frame_mean (img : tensor3 xnum) (k : nat) : xnum :=
  xdiv (fold_left xadd (map (fun px => nth k px NaN) (concat img)) xzero)
       (xof_nat (length (concat img))).

Definition mean_blur (img : tensor3 xnum) : tensor3 xnum :=
  map2 (fun px => tabulate (length px) (frame_mean img)) img.

Definition small_template : tensor3 xnum :=
  [[[xone; xone; xone; xhalf]; [xzero; xzero; xzero; xzero]];
   [[xzero; xzero; xzero; xzero]; [xzero; xzero; xzero; xzero]]].

Definition small_externals : Externals := {|
  load_image := fun _ => Float small_template;
  crop_image := crop_to (A:=xnum);
  blend_images := fun g img =>
    map3 (fun v => xadd (xmul xhalf v) (xmul xhalf g)) img;
  cv_gauss_blur := fun img _ => mean_blur img;
  as_grayscale_image := map2 channel_mean;
  cnum := xnum;
  cmul := xmul;
  cconj := fun z => z;
  creal := fun z => z;
  np_fft2 := small_dft2;
  np_ifft2 := small_idft2;
  torch_fft2 := small_dft2;
  torch_ifft2 := small_idft2
|}.

(** Decidable equality of scalars and arrays, to compare computed results. *)
Definition xeqb (x y : xnum) : bool :=
  match x, y with
  | Fin a, Fin b => Qc_eq_bool a b
  | PInf, PInf | NInf, NInf | NaN, NaN => true
  | _, _ => false
  end.

Fixpoint list_eqb {A : Type} (eqb : A -> A -> bool) (xs ys : list A) : bool :=
  match xs, ys with
  | [], [] => true
  | x :: xs', y :: ys' => eqb x y && list_eqb eqb xs' ys'
  | _, _ => false
  end.

Definition tensor4_eqb : tensor4 xnum -> tensor4 xnum -> bool :=
  list_eqb (list_eqb (list_eqb (list_eqb xeqb))).

(** A flat mid-gray frame of 1 by 2 pixels, and a template whose two pixels
    differ in colour and are both fully transparent. *)
Definition gray_1x2 : tensor4 xnum :=
  [[[[xhalf; xhalf; xhalf]; [xhalf; xhalf; xhalf]]]].

Definition transparent_1x2 : tensor3 xnum :=
  [[[xone; xone; xone; xzero]; [xzero; xzero; xzero; xzero]]].

(** One flat mid-gray frame of 2 by 2 pixels; a template of 1 by 2 pixels
    with a half-transparent white pixel; a [uint8] frame of constant level
    128. *)
Definition gray_2x2 : tensor4 xnum :=
  [[[[xhalf; xhalf; xhalf]; [xhalf; xhalf; xhalf]];
    [[xhalf; xhalf; xhalf]; [xhalf; xhalf; xhalf]]]].

Definition patch_1x2 : tensor3 xnum :=
  [[[xone; xone; xone; xhalf]; [xzero; xzero; xzero; xzero]]].

Definition level128_1x2 : tensor4 byte :=
  [[[[x80; x80; x80]; [x80; x80; x80]]]].

(** The shape of a video of [t] frames of [h] by [w] pixels of [c] channels
    in a layout. *)
Definition layout_dims (layout : string) (t h w c : nat) : nat * nat * nat * nat :=
  if String.eqb layout "TCHW" then (t, c, h, w) else (t, h, w, c).

(** The message of the assertion that stops [_get_watermark_image] on an
    asset that is not a floating RGBA image: the channel test comes first. *)
Definition asset_error (asset : ndarray tensor3) : string :=
  if is_rgba_image asset then
    "Watermark should ideally be saved with floating-point precision"
  else "Without alpha, the watermark is useless".

(** The shifts [torch.roll] takes: 64-bit signed integers. *)
Definition int64 (z : Z) : Prop := (- 2 ^ 63 <= z < 2 ^ 63)%Z.

(** The balanced range of an axis of length [n]: the [n] offsets from the
    centre [n / 2]. *)
Definition centred (n : nat) (d : Z) : Prop :=
  (- Z.of_nat (n / 2) <= d < Z.of_nat n - Z.of_nat (n / 2))%Z.

(* ------------------------------------------------------------------------ *)
(** ** The demo (lines 183-228) *)

(** What the demo imports besides the above.  [shuffled] is random: it is
    whatever function of the list the run draws.  The file system is seen
    through the paths written so far, which is all [get_unique_copy_path] can
    depend on within one run.  Printing and timing ([fansi_print], [tic],
    [ptoc]) have no effect on what is computed or written and are left out. *)
Class DemoExternals : Type := {
  (** [rp_glob(pattern)] *)
  rp_glob : string -> list string;
  (** [shuffled(list)] *)
  shuffled : list string -> list string;
  (** [load_video(path, use_cache=False)] *)
  load_video : string -> ndarray tensor4;
  (** [get_file_name(path, include_file_extension=False)] *)
  get_file_name : string -> string;
  (** [with_file_extension(name, extension)] *)
  with_file_extension : string -> string -> string;
  (** [get_unique_copy_path(path)], given the paths written so far *)
  get_unique_copy_path : list string -> string -> string
}.

Section Demo.
Context {E : Externals} {D : DemoExternals}.

(** A file written by [save_video_mp4]: its path and the array saved. *)
Definition saved_video : Type := (string * ndarray tensor4)%type.

(** Lines 205-212: the loaded video as a numpy array, or as a torch tensor
    of the same data when a device is given. *)
Definition demo_input (device : option string) (video_path : string)
    : pyobj (ndarray tensor4) :=
  match device with
  | Some _ => Array torch (load_video video_path)
  | None => Array numpy (load_video video_path)
  end.

(** Lines 201-228: one turn of the loop. *)
Definition demo_step (device : option string) (video_path : string)
    (saved : list saved_video) : result (list saved_video) :=
  recovered <- remove_watermark (demo_input device video_path) None ;;
  recovered <- as_numpy_array recovered ;;
  let output_path :=
    get_unique_copy_path (map fst saved)
      ("output_videos/" ++ with_file_extension (get_file_name video_path) "mp4")%string in
  Ok (saved ++ [(output_path, recovered)]).

(** The [while] loop, over the paths in the order [pop] takes them.  An
    exception leaves the loop; what has been written stays written. *)
Fixpoint demo_loop (device : option string) (paths : list string)
    (saved : list saved_video) : list saved_video * result unit :=
  match paths with
  | [] => (saved, Ok tt)
  | video_path :: rest =>
      match demo_step device video_path saved with
      | Ok saved' => demo_loop device rest saved'
      | Raise e => (saved, Raise e)
      end
  end.

(** [list.pop()] takes the last element: the shuffled list is consumed from
    its end.  The result is the files written and how the call ended. *)
Definition demo_remove_watermark (input_video_glob : string) (device : option string)
    : list saved_video * result unit :=
  demo_loop device (rev (shuffled (rp_glob input_video_glob))) [].

End Demo.

(** The output of the demo for one input: the array [remove_watermark]
    returns on it, as a numpy array. *)
Definition demo_output {E : Externals} {D : DemoExternals} (device : option string)
    (video_path : string) (entry : saved_video) : Prop :=
  exists lib, remove_watermark (demo_input device video_path) None =
              Ok (Array lib (snd entry)).

(* ------------------------------------------------------------------------ *)
(** ** More executable instances

    [small_externals] with another asset in place of [small_template], and a
    demo over file names that stand for small videos. *)

Definition externals_with_asset (asset : ndarray tensor3) : Externals := {|
  load_image := fun _ => asset;
  crop_image := crop_to (A:=xnum);
  blend_images := fun g img =>
    map3 (fun v => xadd (xmul xhalf v) (xmul xhalf g)) img;
  cv_gauss_blur := fun img _ => mean_blur img;
  as_grayscale_image := map2 channel_mean;
  cnum := xnum;
  cmul := xmul;
  cconj := fun z => z;
  creal := fun z => z;
  np_fft2 := small_dft2;
  np_ifft2 := small_idft2;
  torch_fft2 := small_dft2;
  torch_ifft2 := small_idft2
|}.

(** An RGB image without alpha; a transparent RGBA image of 1 by 3 pixels. *)
Definition rgb_2x2 : tensor3 xnum :=
  [[[xone; xone; xone]; [xzero; xzero; xzero]];
   [[xzero; xzero; xzero]; [xzero; xzero; xzero]]].

Definition transparent_1x3 : tensor3 xnum :=
  [[[xone; xone; xone; xzero]; [xzero; xzero; xzero; xzero];
    [xzero; xzero; xzero; xzero]]].

(** A frame of 1 by 2 pixels with two channels and one with a single
    channel; one RGB frame of 2 by 1 pixels. *)
Definition two_channel_1x2 : tensor4 xnum :=
  [[[[xhalf; xhalf]; [xhalf; xhalf]]]].

Definition one_channel_1x2 : tensor4 xnum := [[[[xhalf]; [xhalf]]]].

Definition gray_2x1 : tensor4 xnum :=
  [[[[xhalf; xhalf; xhalf]]; [[xhalf; xhalf; xhalf]]]].

(** An opaque white pixel next to a transparent one. *)
Definition opaque_1x2 : tensor3 xnum :=
  [[[xone; xone; xone; xone]; [xzero; xzero; xzero; xzero]]].

Definition small_demo (videos : list (string * ndarray tensor4)) : DemoExternals := {|
  rp_glob := fun _ => map fst videos;
  shuffled := fun l => l;
  load_video := fun path =>
    match find (fun v => String.eqb (fst v) path) videos with
    | Some v => snd v
    | None => Float []
    end;
  get_file_name := fun path => path;
  with_file_extension := fun name ext => (name ++ "." ++ ext)%string;
  get_unique_copy_path := fun _ path => path
|}.

(* ======================================================================== *)
(** * Properties *)

(** ** Lists built by [tabulate] *)

Lemma tabulate_length {A : Type} (n : nat) (f : nat -> A) :
  length (tabulate n f) = n.
Proof. unfold tabulate. now rewrite length_map, length_seq. Qed.

Lemma tabulate_nth {A : Type} (n : nat) (f : nat -> A) (d : A) (i : nat) :
  i < n -> nth i (tabulate n f) d = f i.
Proof.
  intros Hi. unfold tabulate.
  rewrite (nth_indep _ d (f 0)) by (rewrite length_map, length_seq; exact Hi).
  rewrite (map_nth f (seq 0 n) 0 i). now rewrite seq_nth.
Qed.

Lemma tabulate_S {A : Type} (n : nat) (f : nat -> A) :
  tabulate (S n) f = f 0 :: tabulate n (fun i => f (S i)).
Proof.
  unfold tabulate. cbn [seq map]. f_equal.
  rewrite <- seq_shift. now rewrite map_map.
Qed.

Lemma tabulate_ext {A : Type} (n : nat) (f g : nat -> A) :
  (forall i, i < n -> f i = g i) -> tabulate n f = tabulate n g.
Proof.
  intros H. unfold tabulate. apply map_ext_in.
  intros i Hi. apply in_seq in Hi. apply H. lia.
Qed.

(** A list is the table of its own entries. *)
Lemma tabulate_self {A : Type} (d : A) (l : list A) :
  tabulate (length l) (fun i => nth i l d) = l.
Proof.
  induction l as [|a l IH]; [reflexivity|].
  cbn [length]. rewrite tabulate_S. cbn [nth]. now rewrite IH.
Qed.

Lemma tabulate_map {A B : Type} (g : A -> B) (n : nat) (f : nat -> A) :
  map g (tabulate n f) = tabulate n (fun i => g (f i)).
Proof. unfold tabulate. now rewrite map_map. Qed.

Lemma Forall_tabulate {A : Type} (P : A -> Prop) (n : nat) (f : nat -> A) :
  (forall i, i < n -> P (f i)) -> Forall P (tabulate n f).
Proof.
  intros H. unfold tabulate. apply Forall_forall. intros x Hx.
  apply in_map_iff in Hx. destruct Hx as [i [<- Hi]].
  apply in_seq in Hi. apply H. lia.
Qed.

Lemma Forall_nth_in {A : Type} (P : A -> Prop) (l : list A) (d : A) (i : nat) :
  Forall P l -> i < length l -> P (nth i l d).
Proof. intros H Hi. eapply Forall_forall; [exact H|]. now apply nth_In. Qed.

(** ** Rectangular arrays *)

Lemma rect2_row {A : Type} (h w : nat) (m : matrix A) (i : nat) :
  rect2 h w m -> i < h -> length (nth i m []) = w.
Proof.
  intros [Hl Hf] Hi. subst h.
  exact (Forall_nth_in [] Hf Hi).
Qed.

Lemma rect3_row {A : Type} (h w c : nat) (m : tensor3 A) (i : nat) :
  rect3 h w c m -> i < h -> rect2 w c (nth i m []).
Proof.
  intros [Hl Hf] Hi. subst h.
  exact (Forall_nth_in [] Hf Hi).
Qed.

Lemma rect4_row {A : Type} (t h w c : nat) (m : tensor4 A) (i : nat) :
  rect4 t h w c m -> i < t -> rect3 h w c (nth i m []).
Proof.
  intros [Hl Hf] Hi. subst t.
  exact (Forall_nth_in [] Hf Hi).
Qed.

Lemma rect3_pixel {A : Type} (h w c : nat) (m : tensor3 A) (y x : nat) :
  rect3 h w c m -> y < h -> x < w -> length (nth x (nth y m []) []) = c.
Proof.
  intros Hm Hy Hx. eapply rect2_row; [|exact Hx]. eapply rect3_row; eauto.
Qed.

Lemma rect2_tabulate {A : Type} (h w : nat) (f : nat -> nat -> A) :
  rect2 h w (tabulate h (fun y => tabulate w (f y))).
Proof.
  split; [apply tabulate_length|].
  apply Forall_tabulate. intros y _. apply tabulate_length.
Qed.

Lemma rect3_tabulate {A : Type} (h w c : nat) (f : nat -> nat -> nat -> A) :
  rect3 h w c (tabulate h (fun y => tabulate w (fun x => tabulate c (f y x)))).
Proof.
  split; [apply tabulate_length|].
  apply Forall_tabulate. intros y _. apply rect2_tabulate.
Qed.

Lemma rect4_tabulate {A : Type} (t h w c : nat) (f : nat -> nat -> nat -> nat -> A) :
  rect4 t h w c
    (tabulate t (fun k => tabulate h (fun y => tabulate w (fun x => tabulate c (f k y x))))).
Proof.
  split; [apply tabulate_length|].
  apply Forall_tabulate. intros k _. apply rect3_tabulate.
Qed.

(** A rectangular array is the table of its entries. *)
Lemma rect2_as_table {A : Type} (d : A) (h w : nat) (m : matrix A) :
  rect2 h w m -> m = tabulate h (fun y => tabulate w (fun x => at2 d m y x)).
Proof.
  intros Hm. destruct Hm as [Hl Hf].
  rewrite <- (tabulate_self [] m) at 1. rewrite Hl.
  apply tabulate_ext. intros y Hy.
  rewrite <- (tabulate_self d (nth y m [])) at 1.
  rewrite (rect2_row (h:=h) (w:=w)); [reflexivity|now split|exact Hy].
Qed.

Lemma rect3_as_table {A : Type} (d : A) (h w c : nat) (m : tensor3 A) :
  rect3 h w c m ->
  m = tabulate h (fun y => tabulate w (fun x => tabulate c (fun k => at3 d m y x k))).
Proof.
  intros Hm.
  rewrite <- (tabulate_self [] m) at 1. rewrite (proj1 Hm).
  apply tabulate_ext. intros y Hy.
  exact (rect2_as_table d (rect3_row Hm Hy)).
Qed.

Lemma rect4_as_table {A : Type} (d : A) (t h w c : nat) (m : tensor4 A) :
  rect4 t h w c m ->
  m = tabulate t (fun i => tabulate h (fun y => tabulate w (fun x =>
        tabulate c (fun k => at4 d m i y x k)))).
Proof.
  intros Hm.
  rewrite <- (tabulate_self [] m) at 1. rewrite (proj1 Hm).
  apply tabulate_ext. intros i Hi.
  exact (rect3_as_table d (rect4_row Hm Hi)).
Qed.

(** ** Broadcasting computes tables *)

Lemma zip_with_r_table {A B C : Type} (f : A -> B -> result C) (da : A) (db : B) :
  forall (xs : list A) (ys : list B) (n : nat) (g : nat -> C),
    length xs = n -> length ys = n ->
    (forall i, i < n -> f (nth i xs da) (nth i ys db) = Ok (g i)) ->
    zip_with_r f xs ys = Ok (tabulate n g).
Proof.
  induction xs as [|x xs IH]; intros ys n g Hx Hy Hf.
  - cbn in Hx. subst n. destruct ys; [reflexivity|discriminate].
  - destruct ys as [|y ys]; cbn in Hx, Hy; [subst n; discriminate|].
    destruct n as [|n]; [discriminate|].
    rewrite tabulate_S. cbn [zip_with_r].
    assert (H0 := Hf 0 ltac:(lia)). cbn [nth] in H0. rewrite H0. cbn [bind].
    rewrite (IH ys n (fun i => g (S i))); [reflexivity|lia|lia|].
    intros i Hi. apply (Hf (S i)). lia.
Qed.

Lemma map_r_table {A C : Type} (f : A -> result C) (da : A) :
  forall (xs : list A) (n : nat) (g : nat -> C),
    length xs = n ->
    (forall i, i < n -> f (nth i xs da) = Ok (g i)) ->
    map_r f xs = Ok (tabulate n g).
Proof.
  induction xs as [|x xs IH]; intros n g Hx Hf.
  - cbn in Hx. subst n. reflexivity.
  - cbn in Hx. destruct n as [|n]; [discriminate|].
    rewrite tabulate_S. cbn [map_r].
    assert (H0 := Hf 0 ltac:(lia)). cbn [nth] in H0. rewrite H0. cbn [bind].
    rewrite (IH n (fun i => g (S i))); [reflexivity|lia|].
    intros i Hi. apply (Hf (S i)). lia.
Qed.

(** Equal axis lengths: the entries pair up. *)
Lemma broadcast_same {A B C : Type} (f : A -> B -> result C) (da : A) (db : B)
    (xs : list A) (ys : list B) (n : nat) (g : nat -> C) :
  length xs = n -> length ys = n ->
  (forall i, i < n -> f (nth i xs da) (nth i ys db) = Ok (g i)) ->
  broadcast f xs ys = Ok (tabulate n g).
Proof.
  intros Hx Hy Hf. unfold broadcast.
  rewrite Hx, Hy, Nat.eqb_refl. now apply zip_with_r_table with da db.
Qed.

(** A right operand of axis length 1 is stretched along the left one. *)
Lemma broadcast_right1 {A B C : Type} (f : A -> B -> result C) (da : A)
    (xs : list A) (y : B) (n : nat) (g : nat -> C) :
  length xs = n ->
  (forall i, i < n -> f (nth i xs da) y = Ok (g i)) ->
  broadcast f xs [y] = Ok (tabulate n g).
Proof.
  intros Hx Hf. unfold broadcast. cbn [length].
  destruct (Nat.eqb_spec (length xs) 1) as [H1|H1].
  - apply zip_with_r_table with da y; [exact Hx|cbn [length]; lia|].
    intros i Hi. assert (i = 0) by lia. subst i. cbn [nth]. apply Hf. lia.
  - assert (Hm : map_r (fun x => f x y) xs = Ok (tabulate n g))
      by (now apply map_r_table with da).
    destruct xs as [|x [|x' xs']]; exact Hm.
Qed.

(** A left operand of axis length 1 is stretched along the right one. *)
Lemma broadcast_left1 {A B C : Type} (f : A -> B -> result C) (db : B)
    (x : A) (ys : list B) (n : nat) (g : nat -> C) :
  length ys = n ->
  (forall i, i < n -> f x (nth i ys db) = Ok (g i)) ->
  broadcast f [x] ys = Ok (tabulate n g).
Proof.
  intros Hy Hf. unfold broadcast. cbn [length].
  destruct (Nat.eqb_spec 1 (length ys)) as [H1|H1].
  - apply zip_with_r_table with x db; [cbn [length]; lia|exact Hy|].
    intros i Hi. assert (i = 0) by lia. subst i. cbn [nth]. apply Hf. lia.
  - now apply map_r_table with db.
Qed.

Lemma backend_eqb_refl (l : backend) : backend_eqb l l = true.
Proof. now destruct l. Qed.

Lemma py_binop_same {A B C : Type} (f : A -> B -> result C) (l : backend)
    (a : A) (b : B) (c : C) :
  f a b = Ok c -> py_binop f (Array l a) (Array l b) = Ok (Array l c).
Proof. intros H. cbn. now rewrite backend_eqb_refl, H. Qed.

Lemma nth_map_nil {A B : Type} (f : list A -> list B) (l : list (list A)) (i : nat) :
  f [] = [] -> nth i (map f l) [] = f (nth i l []).
Proof. intros H. rewrite <- H at 1. apply map_nth. Qed.

(** ** Tables *)

Lemma table2_at {A : Type} (d : A) (h w : nat) (f : nat -> nat -> A) (y x : nat) :
  y < h -> x < w -> at2 d (table2 h w f) y x = f y x.
Proof.
  intros Hy Hx. unfold at2, table2.
  rewrite tabulate_nth by exact Hy. now rewrite tabulate_nth.
Qed.

Lemma table3_at {A : Type} (d : A) (h w c : nat) (f : nat -> nat -> nat -> A)
    (y x k : nat) :
  y < h -> x < w -> k < c -> at3 d (table3 h w c f) y x k = f y x k.
Proof.
  intros Hy Hx Hk. unfold at3, table3.
  rewrite tabulate_nth by exact Hy. now apply table2_at.
Qed.

Lemma table4_at {A : Type} (d : A) (t h w c : nat)
    (f : nat -> nat -> nat -> nat -> A) (i y x k : nat) :
  i < t -> y < h -> x < w -> k < c -> at4 d (table4 t h w c f) i y x k = f i y x k.
Proof.
  intros Hi Hy Hx Hk. unfold at4, table4.
  rewrite tabulate_nth by exact Hi. now apply table3_at.
Qed.

Lemma table2_rect {A : Type} (h w : nat) (f : nat -> nat -> A) :
  rect2 h w (table2 h w f).
Proof. apply rect2_tabulate. Qed.

Lemma table3_rect {A : Type} (h w c : nat) (f : nat -> nat -> nat -> A) :
  rect3 h w c (table3 h w c f).
Proof. apply rect3_tabulate. Qed.

Lemma table4_rect {A : Type} (t h w c : nat) (f : nat -> nat -> nat -> nat -> A) :
  rect4 t h w c (table4 t h w c f).
Proof. apply rect4_tabulate. Qed.

Lemma table2_ext {A : Type} (h w : nat) (f g : nat -> nat -> A) :
  (forall y x, y < h -> x < w -> f y x = g y x) -> table2 h w f = table2 h w g.
Proof.
  intros H. apply tabulate_ext. intros y Hy. apply tabulate_ext. intros x Hx.
  now apply H.
Qed.

Lemma table3_ext {A : Type} (h w c : nat) (f g : nat -> nat -> nat -> A) :
  (forall y x k, y < h -> x < w -> k < c -> f y x k = g y x k) ->
  table3 h w c f = table3 h w c g.
Proof.
  intros H. apply tabulate_ext. intros y Hy. apply table2_ext. intros x k Hx Hk.
  now apply H.
Qed.

Lemma table4_ext {A : Type} (t h w c : nat) (f g : nat -> nat -> nat -> nat -> A) :
  (forall i y x k, i < t -> y < h -> x < w -> k < c -> f i y x k = g i y x k) ->
  table4 t h w c f = table4 t h w c g.
Proof.
  intros H. apply tabulate_ext. intros i Hi. apply table3_ext. intros y x k Hy Hx Hk.
  now apply H.
Qed.

Lemma rect3_table {A : Type} (d : A) (h w c : nat) (m : tensor3 A) :
  rect3 h w c m -> m = table3 h w c (at3 d m).
Proof. apply rect3_as_table. Qed.

Lemma rect4_table {A : Type} (d : A) (t h w c : nat) (m : tensor4 A) :
  rect4 t h w c m -> m = table4 t h w c (at4 d m).
Proof. apply rect4_as_table. Qed.

Lemma map3_table {A B : Type} (g : A -> B) (h w c : nat) (f : nat -> nat -> nat -> A) :
  map3 g (table3 h w c f) = table3 h w c (fun y x k => g (f y x k)).
Proof.
  unfold map3, map2, table3, table2. rewrite tabulate_map.
  apply tabulate_ext. intros y _. rewrite tabulate_map.
  apply tabulate_ext. intros x _. apply tabulate_map.
Qed.

Lemma map4_table {A B : Type} (g : A -> B) (t h w c : nat)
    (f : nat -> nat -> nat -> nat -> A) :
  map4 g (table4 t h w c f) = table4 t h w c (fun i y x k => g (f i y x k)).
Proof.
  unfold map4, table4. rewrite tabulate_map.
  apply tabulate_ext. intros i _. apply map3_table.
Qed.

Lemma map3_at {A B : Type} (da : A) (db : B) (g : A -> B) (h w c : nat)
    (m : tensor3 A) (y x k : nat) :
  rect3 h w c m -> y < h -> x < w -> k < c ->
  at3 db (map3 g m) y x k = g (at3 da m y x k).
Proof.
  intros Hm Hy Hx Hk.
  assert (Hmap : map3 g m = table3 h w c (fun y x k => g (at3 da m y x k))).
  { rewrite (rect3_table da Hm) at 1. apply map3_table. }
  rewrite Hmap. now apply table3_at.
Qed.

(** ** Broadcasting on whole arrays *)

Section BroadcastArrays.
Context {A : Type} (d : A) (f : A -> A -> A).

Lemma bc1_same (n : nat) (p q : list A) :
  length p = n -> length q = n ->
  bc1 f p q = Ok (tabulate n (fun k => f (nth k p d) (nth k q d))).
Proof. intros Hp Hq. now apply broadcast_same with d d. Qed.

Lemma bc1_left1 (n : nat) (p q : list A) :
  length p = 1 -> length q = n ->
  bc1 f p q = Ok (tabulate n (fun k => f (nth 0 p d) (nth k q d))).
Proof.
  intros Hp Hq. destruct p as [|a [|b p]]; try discriminate.
  now apply broadcast_left1 with d.
Qed.

Lemma bc1_right1 (n : nat) (p q : list A) :
  length p = n -> length q = 1 ->
  bc1 f p q = Ok (tabulate n (fun k => f (nth k p d) (nth 0 q d))).
Proof.
  intros Hp Hq. destruct q as [|a [|b q]]; try discriminate.
  now apply broadcast_right1 with d.
Qed.

(** Two operands of one shape. *)
Lemma bc3_same (h w c : nat) (m1 m2 : tensor3 A) :
  rect3 h w c m1 -> rect3 h w c m2 ->
  bc3 f m1 m2 = Ok (table3 h w c (fun y x k => f (at3 d m1 y x k) (at3 d m2 y x k))).
Proof.
  intros H1 H2. apply broadcast_same with [] []; [apply H1|apply H2|].
  intros y Hy. apply broadcast_same with [] [].
  - apply (proj1 (rect3_row H1 Hy)).
  - apply (proj1 (rect3_row H2 Hy)).
  - intros x Hx. apply bc1_same; now apply rect3_pixel with h w.
Qed.

(** A single-channel left operand against a [c]-channel right operand. *)
Lemma bc3_left1 (h w c : nat) (m1 m2 : tensor3 A) :
  rect3 h w 1 m1 -> rect3 h w c m2 ->
  bc3 f m1 m2 = Ok (table3 h w c (fun y x k => f (at3 d m1 y x 0) (at3 d m2 y x k))).
Proof.
  intros H1 H2. apply broadcast_same with [] []; [apply H1|apply H2|].
  intros y Hy. apply broadcast_same with [] [].
  - apply (proj1 (rect3_row H1 Hy)).
  - apply (proj1 (rect3_row H2 Hy)).
  - intros x Hx. apply bc1_left1.
    + now apply rect3_pixel with h w.
    + now apply rect3_pixel with h w.
Qed.

(** A [c]-channel left operand against a single-channel right operand. *)
Lemma bc3_right1 (h w c : nat) (m1 m2 : tensor3 A) :
  rect3 h w c m1 -> rect3 h w 1 m2 ->
  bc3 f m1 m2 = Ok (table3 h w c (fun y x k => f (at3 d m1 y x k) (at3 d m2 y x 0))).
Proof.
  intros H1 H2. apply broadcast_same with [] []; [apply H1|apply H2|].
  intros y Hy. apply broadcast_same with [] [].
  - apply (proj1 (rect3_row H1 Hy)).
  - apply (proj1 (rect3_row H2 Hy)).
  - intros x Hx. apply bc1_right1.
    + now apply rect3_pixel with h w.
    + now apply rect3_pixel with h w.
Qed.

(** A video against an image of the frames' shape. *)
Lemma bc43_same (t h w c : nat) (v : tensor4 A) (m : tensor3 A) :
  rect4 t h w c v -> rect3 h w c m ->
  bc43 f v m =
  Ok (table4 t h w c (fun i y x k => f (at4 d v i y x k) (at3 d m y x k))).
Proof.
  intros Hv Hm. apply broadcast_right1 with []; [apply Hv|].
  intros i Hi. apply bc3_same; [now apply rect4_row with t|exact Hm].
Qed.

(** A video against a single-channel image. *)
Lemma bc43_right1 (t h w c : nat) (v : tensor4 A) (m : tensor3 A) :
  rect4 t h w c v -> rect3 h w 1 m ->
  bc43 f v m =
  Ok (table4 t h w c (fun i y x k => f (at4 d v i y x k) (at3 d m y x 0))).
Proof.
  intros Hv Hm. apply broadcast_right1 with []; [apply Hv|].
  intros i Hi. apply bc3_right1; [now apply rect4_row with t|exact Hm].
Qed.

End BroadcastArrays.

(** ** Channel slices *)

Lemma slice_channels_to_rect {A : Type} (k h w c : nat) (m : tensor3 A) :
  rect3 h w c m -> rect3 h w (Nat.min k c) (slice_channels_to k m).
Proof.
  intros [Hl Hf]. split; [unfold slice_channels_to; now rewrite length_map|].
  unfold slice_channels_to. apply Forall_map.
  eapply Forall_impl; [|exact Hf]. intros row [Hr Hp].
  split; [now rewrite length_map|]. apply Forall_map.
  eapply Forall_impl; [|exact Hp]. intros px Hpx.
  unfold rect1 in *. rewrite length_firstn. now rewrite Hpx.
Qed.

Lemma slice_channels_from_rect {A : Type} (k h w c : nat) (m : tensor3 A) :
  rect3 h w c m -> rect3 h w (c - k) (slice_channels_from k m).
Proof.
  intros [Hl Hf]. split; [unfold slice_channels_from; now rewrite length_map|].
  unfold slice_channels_from. apply Forall_map.
  eapply Forall_impl; [|exact Hf]. intros row [Hr Hp].
  split; [now rewrite length_map|]. apply Forall_map.
  eapply Forall_impl; [|exact Hp]. intros px Hpx.
  unfold rect1 in *. rewrite length_skipn. now rewrite Hpx.
Qed.

Lemma slice_channels_to_at {A : Type} (d : A) (k : nat) (m : tensor3 A) (y x j : nat) :
  j < k -> at3 d (slice_channels_to k m) y x j = at3 d m y x j.
Proof.
  intros Hj. unfold at3, slice_channels_to.
  rewrite nth_map_nil by reflexivity. rewrite nth_map_nil by apply firstn_nil.
  rewrite nth_firstn. destruct (Nat.ltb_spec j k); [reflexivity|lia].
Qed.

Lemma slice_channels_from_at {A : Type} (d : A) (k : nat) (m : tensor3 A) (y x j : nat) :
  at3 d (slice_channels_from k m) y x j = at3 d m y x (k + j).
Proof.
  unfold at3, slice_channels_from.
  rewrite nth_map_nil by reflexivity. rewrite nth_map_nil by apply skipn_nil.
  apply nth_skipn.
Qed.

(** ** C1: the recovery formula *)

Section Recovery.
Context {E : Externals}.

(** The closed form of [recover_background] on a [t]-frame RGB video and an
    RGBA watermark of the frames' size. *)
Lemma recover_background_table (lib : backend) (t h w : nat)
    (video : tensor4 xnum) (wm : tensor3 xnum) :
  rect4 t h w 3 video -> rect3 h w 4 wm ->
  recover_background (Array lib video) (Array lib wm) =
  Ok (Array lib (table4 t h w 3 (fun i y x k =>
        recover1 (at4 NaN video i y x k) (at3 NaN wm y x k) (alpha_at wm y x)))).
Proof.
  intros Hv Hw. unfold recover_background. cbn [py_apply bind].
  assert (Hrgb : rect3 h w 3 (slice_channels_to 3 wm))
    by exact (slice_channels_to_rect 3 Hw).
  assert (Hal : rect3 h w 1 (slice_channels_from 3 wm))
    by exact (slice_channels_from_rect 3 Hw).
  rewrite (py_binop_same _ lib _ _ (bc3_left1 NaN xmul Hal Hrgb)). cbn [bind].
  rewrite (py_binop_same _ lib _ _
             (bc43_same NaN xsub Hv (table3_rect h w 3 _))). cbn [bind].
  assert (Hden : rect3 h w 1 (map3 (xsub xone) (slice_channels_from 3 wm))).
  { rewrite (rect3_table NaN Hal), map3_table. apply table3_rect. }
  rewrite (py_binop_same _ lib _ _
             (bc43_right1 NaN xdiv (table4_rect t h w 3 _) Hden)). cbn [bind].
  unfold _clip.
  assert (Hgoal : forall a b : tensor4 xnum, a = b ->
            match lib with
            | numpy => Ok (Array numpy a)
            | torch => Ok (Array torch a)
            end = Ok (Array lib b)).
  { intros a b ->. now destruct lib. }
  apply Hgoal. rewrite map4_table. apply table4_ext.
  intros i y x k Hi Hy Hx Hk. unfold recover1, alpha_at.
  rewrite table4_at by assumption. rewrite table3_at by assumption.
  rewrite slice_channels_to_at by exact Hk.
  rewrite slice_channels_from_at. cbn [Nat.add].
  rewrite (map3_at NaN NaN (xsub xone) Hal) by lia.
  rewrite slice_channels_from_at. reflexivity.
Qed.

(** C1.  On a video of [t] frames of [h] by [w] RGB pixels and an RGBA
    watermark of the same height and width, on either backend, background
    recovery returns an array of the video's shape whose value at frame [i],
    row [y], column [x], channel [k] is
    [clip((composite - alpha * rgb) / (1 - alpha), 0, 1)] computed from the
    composite value at that position and the watermark's colour and opacity at
    pixel [(y, x)] alone. *)
Theorem recover_background_formula (lib : backend) (t h w : nat)
    (video : tensor4 xnum) (wm : tensor3 xnum) :
  rect4 t h w 3 video -> rect3 h w 4 wm ->
  exists out,
    recover_background (Array lib video) (Array lib wm) = Ok (Array lib out) /\
    rect4 t h w 3 out /\
    forall i y x k, i < t -> y < h -> x < w -> k < 3 ->
      at4 NaN out i y x k =
      clip1 xzero xone
        (xdiv (xsub (at4 NaN video i y x k)
                    (xmul (at3 NaN wm y x 3) (at3 NaN wm y x k)))
              (xsub xone (at3 NaN wm y x 3))).
Proof.
  intros Hv Hw. eexists. split; [exact (recover_background_table lib Hv Hw)|].
  split; [apply table4_rect|].
  intros i y x k Hi Hy Hx Hk. now rewrite table4_at.
Qed.

End Recovery.

(** ** Scalar arithmetic *)

Lemma qc0 : qc_of_Z 0 = 0%Qc. Proof. reflexivity. Qed.
Lemma qc1 : qc_of_Z 1 = 1%Qc. Proof. reflexivity. Qed.

Lemma qsign_Eq (q : Qc) : qsign q = Eq <-> q = 0%Qc.
Proof. unfold qsign. rewrite qc0. symmetry. apply Qceq_alt. Qed.

Lemma Qc_0_le_1 : (0 <= 1)%Qc.
Proof. unfold Qcle. cbn. discriminate. Qed.

Lemma clip1_unit_fin (q : Qc) :
  (0 <= q)%Qc -> (q <= 1)%Qc -> clip1 xzero xone (Fin q) = Fin q.
Proof.
  intros H0 H1. unfold clip1, xmax, xmin, xzero, xone. cbn [is_nan xltb].
  rewrite qc0, qc1.
  destruct (Qccompare q 0) eqn:Hc.
  - cbn [is_nan xltb]. destruct (Qccompare 1 q) eqn:Hd; try reflexivity.
    apply Qclt_alt in Hd. exfalso. now apply (Qcle_not_lt _ _ H1).
  - apply Qclt_alt in Hc. exfalso. now apply (Qcle_not_lt _ _ H0).
  - cbn [is_nan xltb]. destruct (Qccompare 1 q) eqn:Hd; try reflexivity.
    apply Qclt_alt in Hd. exfalso. now apply (Qcle_not_lt _ _ H1).
Qed.

Lemma clip1_in_unit (x : xnum) : is_nan x = false -> in_unit (clip1 xzero xone x).
Proof.
  intros Hx. unfold in_unit, clip1, xmax, xmin, xzero, xone. rewrite qc0, qc1.
  destruct x as [q| | |]; try discriminate; cbn [is_nan xltb xle].
  - destruct (Qccompare q 0) eqn:Hc; cbn [is_nan xltb].
    + apply Qceq_alt in Hc. subst q.
      change (Qccompare 1 0) with Gt. cbn [xle]. split; [apply Qcle_refl|apply Qc_0_le_1].
    + change (Qccompare 1 0) with Gt. cbn [xle]. split; [apply Qcle_refl|apply Qc_0_le_1].
    + apply Qcgt_alt in Hc.
      destruct (Qccompare 1 q) eqn:Hd; cbn [xle].
      * apply Qceq_alt in Hd. subst q. split; [apply Qc_0_le_1|apply Qcle_refl].
      * split; [apply Qc_0_le_1|apply Qcle_refl].
      * apply Qcgt_alt in Hd. split; now apply Qclt_le_weak.
  - change (Qccompare 1 0) with Gt. cbn. split; [apply Qc_0_le_1|apply Qcle_refl].
  - cbn. split; [apply Qcle_refl|apply Qc_0_le_1].
Qed.

Ltac qc_neq :=
  let H := fresh in
  intro H; apply (f_equal (fun q : Qc => Qnum (this q))) in H; cbn in H; discriminate.

Lemma one_minus_nonzero (a : Qc) : a <> 1%Qc -> (1 + - a)%Qc <> 0%Qc.
Proof.
  intros Ha H. apply Ha. 
  assert (a = 1 + - (1 + - a))%Qc as -> by ring. rewrite H. ring.
Qed.

Lemma xdiv_fin (a b : Qc) : b <> 0%Qc -> xdiv (Fin a) (Fin b) = Fin (a / b)%Qc.
Proof.
  intros Hb. unfold xdiv. destruct (qsign b) eqn:Hs; try reflexivity.
  apply qsign_Eq in Hs. contradiction.
Qed.

Lemma pre_clip_fin (c r a : Qc) :
  a <> 1%Qc ->
  xdiv (xsub (Fin c) (xmul (Fin a) (Fin r))) (xsub xone (Fin a)) =
  Fin ((c + - (a * r)) / (1 + - a))%Qc.
Proof.
  intros Ha. unfold xsub, xmul, xone. cbn [xopp xadd]. rewrite qc1.
  apply xdiv_fin. now apply one_minus_nonzero.
Qed.

Lemma recover1_alpha0 (c r : Qc) :
  (0 <= c)%Qc -> (c <= 1)%Qc -> recover1 (Fin c) (Fin r) xzero = Fin c.
Proof.
  intros H0 H1. unfold recover1, xzero. rewrite qc0.
  rewrite pre_clip_fin by qc_neq.
  replace ((c + - (0 * r)) / (1 + - 0))%Qc with c by (field; qc_neq).
  now apply clip1_unit_fin.
Qed.

(** Why C4 speaks of colours that are numbers: IEEE gives [0 * inf = NaN],
    so an infinite colour value survives a zero opacity. *)
Lemma recover1_alpha0_infinite (c : Qc) : recover1 (Fin c) PInf xzero = NaN.
Proof. reflexivity. Qed.



Lemma byte_le_255 (b : byte) : (Z.of_N (Byte.to_N b) <= 255)%Z.
Proof. destruct b; cbn; lia. Qed.

Lemma scaled_byte_in_unit (b : byte) : in_unit (xdiv (xof_byte b) x255).
Proof.
  unfold xof_byte, x255. rewrite xdiv_fin by qc_neq.
  unfold in_unit, xzero, xone, xle.
  destruct b; split; vm_compute; discriminate.
Qed.

(** ** Elementwise predicates *)

Lemma all3_at {A : Type} (P : A -> Prop) (d : A) (h w c : nat) (m : tensor3 A)
    (y x k : nat) :
  rect3 h w c m -> all3 P m -> y < h -> x < w -> k < c -> P (at3 d m y x k).
Proof.
  intros Hm Ha Hy Hx Hk. unfold at3.
  assert (Hrow := rect3_row Hm Hy).
  apply Forall_nth_in; [|now rewrite (rect2_row Hrow Hx)].
  apply Forall_nth_in; [|now rewrite (proj1 Hrow)].
  apply Forall_nth_in; [exact Ha|now rewrite (proj1 Hm)].
Qed.

Lemma all4_at {A : Type} (P : A -> Prop) (d : A) (t h w c : nat) (m : tensor4 A)
    (i y x k : nat) :
  rect4 t h w c m -> all4 P m -> i < t -> y < h -> x < w -> k < c ->
  P (at4 d m i y x k).
Proof.
  intros Hm Ha Hi Hy Hx Hk.
  apply (all3_at d (rect4_row Hm Hi)); try assumption.
  apply Forall_nth_in; [exact Ha|now rewrite (proj1 Hm)].
Qed.

Lemma all_pixels_at {A : Type} (P : list A -> Prop) (h w c : nat) (m : tensor3 A)
    (y x : nat) :
  rect3 h w c m -> all_pixels P m -> y < h -> x < w -> P (nth x (nth y m []) []).
Proof.
  intros Hm Ha Hy Hx.
  apply Forall_nth_in; [|now rewrite (proj1 (rect3_row Hm Hy))].
  apply Forall_nth_in; [exact Ha|now rewrite (proj1 Hm)].
Qed.

Lemma all4_table {A : Type} (P : A -> Prop) (t h w c : nat)
    (f : nat -> nat -> nat -> nat -> A) :
  (forall i y x k, i < t -> y < h -> x < w -> k < c -> P (f i y x k)) ->
  all4 P (table4 t h w c f).
Proof.
  intros H. apply Forall_tabulate. intros i Hi.
  apply Forall_tabulate. intros y Hy.
  apply Forall_tabulate. intros x Hx.
  apply Forall_tabulate. intros k Hk. now apply H.
Qed.

Lemma in_unit_fin (x : xnum) :
  in_unit x -> exists q, x = Fin q /\ (0 <= q)%Qc /\ (q <= 1)%Qc.
Proof.
  unfold in_unit, xzero, xone. rewrite qc0, qc1.
  destruct x as [q| | |]; cbn [xle]; intros [H0 H1]; try contradiction.
  now exists q.
Qed.

Lemma is_fin_inv (x : xnum) : is_fin x -> exists q, x = Fin q.
Proof. destruct x as [q| | |]; cbn; try contradiction. now exists q. Qed.

(** ** Rolling keeps shapes and elementwise facts *)

Lemma roll1_length {A : Type} (s : Z) (l : list A) : length (roll1 s l) = length l.
Proof.
  unfold roll1. rewrite length_app, length_skipn, length_firstn. lia.
Qed.

Lemma Forall_firstn_skipn {A : Type} (P : A -> Prop) (n : nat) (l : list A) :
  Forall P l -> Forall P (firstn n l) /\ Forall P (skipn n l).
Proof.
  intros H. rewrite <- (firstn_skipn n l) in H. now apply Forall_app in H.
Qed.

Lemma roll1_Forall {A : Type} (P : A -> Prop) (s : Z) (l : list A) :
  Forall P l -> Forall P (roll1 s l).
Proof.
  intros H. unfold roll1. apply Forall_app.
  split; now apply Forall_firstn_skipn.
Qed.

Lemma roll01_rect3 {A : Type} (sy sx : Z) (h w c : nat) (m : tensor3 A) :
  rect3 h w c m -> rect3 h w c (roll01 sy sx m).
Proof.
  intros [Hl Hf]. unfold roll01. split.
  - now rewrite length_map, roll1_length.
  - apply Forall_map. apply roll1_Forall.
    eapply Forall_impl; [|exact Hf]. intros row [Hr Hp].
    split; [now rewrite roll1_length|now apply roll1_Forall].
Qed.

Lemma roll01_all_pixels {A : Type} (P : list A -> Prop) (sy sx : Z) (m : tensor3 A) :
  all_pixels P m -> all_pixels P (roll01 sy sx m).
Proof.
  intros H. unfold roll01, all_pixels. apply Forall_map. apply roll1_Forall.
  eapply Forall_impl; [|exact H]. intros row Hr. now apply roll1_Forall.
Qed.

Lemma roll01_all3 {A : Type} (P : A -> Prop) (sy sx : Z) (m : tensor3 A) :
  all3 P m -> all3 P (roll01 sy sx m).
Proof. apply (@roll01_all_pixels A (Forall P)). Qed.

(** ** Synthesised composites as tables *)

Lemma zip_with_table {A B C : Type} (f : A -> B -> C) (da : A) (db : B) :
  forall (xs : list A) (ys : list B) (n : nat),
    length xs = n -> length ys = n ->
    zip_with f xs ys = tabulate n (fun i => f (nth i xs da) (nth i ys db)).
Proof.
  induction xs as [|x xs IH]; intros ys n Hx Hy.
  - cbn in Hx. subst n. reflexivity.
  - destruct ys as [|y ys]; cbn in Hx, Hy; [subst n; discriminate|].
    destruct n as [|n]; [discriminate|].
    rewrite tabulate_S. cbn [zip_with nth]. f_equal. apply IH; lia.
Qed.





(** ** C4, C10 and the recovery half of C2 *)

Lemma xltb_one_neq (a : Qc) : xltb (Fin a) xone = true -> a <> 1%Qc.
Proof.
  unfold xone. rewrite qc1. cbn [xltb]. intros H ->.
  assert (Hc : Qccompare 1 1 = Eq) by (now apply Qceq_alt).
  rewrite Hc in H. discriminate.
Qed.

Lemma recover1_in_unit (c r a : Qc) :
  a <> 1%Qc -> in_unit (recover1 (Fin c) (Fin r) (Fin a)).
Proof.
  intros Ha. unfold recover1. rewrite pre_clip_fin by exact Ha.
  now apply clip1_in_unit.
Qed.

(** What the precondition of C10 excludes: at an opaque pixel ([alpha = 1])
    whose composite equals the watermark colour the quotient is [0 / 0], and
    the clip lets the [NaN] through. *)
Lemma recover1_at_alpha_one (c : Qc) : recover1 (Fin c) (Fin c) xone = NaN.
Proof.
  unfold recover1, xsub, xmul, xone. cbn [xopp xadd]. rewrite qc1.
  unfold xdiv.
  assert (H1 : qsign (1 + Qcopp 1)%Qc = Eq) by (apply qsign_Eq; ring).
  assert (H2 : qsign (c + - (1 * c))%Qc = Eq) by (apply qsign_Eq; ring).
  now rewrite H1, H2.
Qed.

Lemma zero_divisor_one_minus (a : xnum) :
  xltb a xone = true -> zero_divisor (xsub xone a) = false.
Proof.
  destruct a as [q| | |]; try discriminate; [|reflexivity].
  intros H. apply xltb_one_neq in H. unfold xsub, xone. cbn [xopp xadd].
  rewrite qc1. unfold zero_divisor.
  destruct (qsign (1 + - q)) eqn:Hs; try reflexivity.
  apply qsign_Eq in Hs. now apply one_minus_nonzero in H.
Qed.

(** C4.  When the watermark's opacity is 0 at every pixel (and its colour
    values are numbers), recovering from a frame whose values lie in [0, 1]
    returns that frame, exactly. *)
Theorem no_watermark_identity (lib : backend) (t h w : nat)
    (frames : tensor4 xnum) (wm : tensor3 xnum) :
  rect4 t h w 3 frames -> rect3 h w 4 wm ->
  all4 in_unit frames -> all3 is_fin wm ->
  all_pixels (fun px => alpha_of px = xzero) wm ->
  recover_background (Array lib frames) (Array lib wm) = Ok (Array lib frames).
Proof.
  intros Hv Hw Hu Hfin Ha.
  rewrite (recover_background_table lib Hv Hw). do 2 f_equal.
  etransitivity; [|symmetry; exact (rect4_table NaN Hv)]. apply table4_ext.
  intros i y x k Hi Hy Hx Hk.
  destruct (in_unit_fin (all4_at NaN Hv Hu Hi Hy Hx Hk)) as [c [-> [H0 H1]]].
  destruct (is_fin_inv _ (all3_at NaN (k:=k) Hw Hfin Hy Hx ltac:(lia))) as [r ->].
  assert (Hal : alpha_at wm y x = xzero) by exact (all_pixels_at Hw Ha Hy Hx).
  rewrite Hal. now apply recover1_alpha0.
Qed.

(** C10.  When the opacity is below 1 at every pixel, no divisor
    [1 - alpha] that [recover_background] forms is zero, so the
    division-by-zero branch of the division is not taken; and on a composite
    and a watermark made of numbers the call returns, with every value of the
    result a number in [0, 1]. *)
Theorem recovery_division_safe (lib : backend) (t h w : nat)
    (video : tensor4 xnum) (wm : tensor3 xnum) :
  rect4 t h w 3 video -> rect3 h w 4 wm ->
  all4 is_fin video -> all3 is_fin wm ->
  all_pixels (fun px => xltb (alpha_of px) xone = true) wm ->
  (forall y x, y < h -> x < w ->
     zero_divisor (xsub xone (alpha_at wm y x)) = false) /\
  exists out,
    recover_background (Array lib video) (Array lib wm) = Ok (Array lib out) /\
    rect4 t h w 3 out /\ all4 in_unit out.
Proof.
  intros Hv Hw Hfv Hfw Ha. split.
  - intros y x Hy Hx. apply zero_divisor_one_minus.
    exact (all_pixels_at Hw Ha Hy Hx).
  - eexists. split; [exact (recover_background_table lib Hv Hw)|].
    split; [apply table4_rect|].
    apply all4_table. intros i y x k Hi Hy Hx Hk.
    destruct (is_fin_inv _ (all4_at NaN Hv Hfv Hi Hy Hx Hk)) as [c ->].
    destruct (is_fin_inv _ (all3_at NaN (k:=k) Hw Hfw Hy Hx ltac:(lia))) as [r ->].
    assert (Hlt : xltb (alpha_at wm y x) xone = true)
      by exact (all_pixels_at Hw Ha Hy Hx).
    assert (Hq : exists a, alpha_at wm y x = Fin a)
      by exact (is_fin_inv _ (all3_at NaN (k:=3) Hw Hfw Hy Hx ltac:(lia))).
    destruct Hq as [a Hq]. rewrite Hq in *.
    apply recover1_in_unit. now apply xltb_one_neq.
Qed.


(** ** C9: values of no supported backend *)

(** C9.  On a value that is neither a numpy array nor a torch tensor, each
    operation of the format adapter (FFT, inverse FFT, spectrum shift, clip,
    roll, default layout, backend conversion) raises a [TypeError] saying the
    input type is unsupported, and so returns no result. *)
Theorem format_adapter_rejects_unsupported {E : Externals} :
  (forall x, is_numpy_array x = false -> is_torch_tensor x = false ->
     _fft2 x = Raise unsupported) /\
  (forall x, is_numpy_array x = false -> is_torch_tensor x = false ->
     _ifft2 x = Raise unsupported) /\
  (forall (A : Type) (x : pyobj (matrix A)),
     is_numpy_array x = false -> is_torch_tensor x = false ->
     _fftshift x = Raise unsupported) /\
  (forall x lo hi, is_numpy_array x = false -> is_torch_tensor x = false ->
     _clip x lo hi = Raise unsupported) /\
  (forall (A : Type) (x : pyobj (list (list A))) shift,
     is_numpy_array x = false -> is_torch_tensor x = false ->
     _roll x shift = Raise unsupported) /\
  (forall (A : Type) (x : pyobj A),
     is_numpy_array x = false -> is_torch_tensor x = false ->
     _default_form x = Raise unsupported) /\
  (forall (A B : Type) (x : pyobj A) (target : pyobj B),
     is_numpy_array x = false -> is_torch_tensor x = false ->
     _like x target = Raise (TypeError "Unsupported input types")).
Proof.
  repeat split; intros; destruct x as [[|] a|]; cbn in *;
    try discriminate; reflexivity.
Qed.

(** ** C8: cropping the template *)

Lemma firstn_rows_rect3 {A : Type} (H W C h w : nat) (m : tensor3 A) :
  rect3 H W C m -> h <= H -> w <= W ->
  rect3 h w C (map (firstn w) (firstn h m)).
Proof.
  intros [Hl Hf] Hh Hw. split.
  - rewrite length_map, length_firstn. lia.
  - apply Forall_map.
    eapply Forall_impl; [|exact (proj1 (Forall_firstn_skipn h Hf))].
    intros row [Hr Hp]. split.
    + rewrite length_firstn. lia.
    + exact (proj1 (Forall_firstn_skipn w Hp)).
Qed.

Lemma firstn_rows_at {A : Type} (d : A) (h w : nat) (m : tensor3 A) (y x k : nat) :
  y < h -> x < w -> at3 d (map (firstn w) (firstn h m)) y x k = at3 d m y x k.
Proof.
  intros Hy Hx. unfold at3.
  rewrite nth_map_nil by apply firstn_nil.
  rewrite !nth_firstn.
  destruct (Nat.ltb_spec x w); [|lia]. destruct (Nat.ltb_spec y h); [|lia].
  reflexivity.
Qed.

Lemma rect3_shape3 {A : Type} (H W C : nat) (m : tensor3 A) :
  rect3 H W C m -> 0 < H -> 0 < W -> shape3 m = (H, W, C).
Proof.
  intros Hm HH HW. unfold shape3.
  assert (Hrow := rect3_row Hm HH). assert (Hpx := rect3_pixel Hm HH HW).
  destruct Hm as [Hl _]. destruct m as [|r m]; [cbn in Hl; lia|].
  cbn [nth hd] in *. destruct Hrow as [Hr _].
  destruct r as [|p r]; [cbn in Hr; lia|]. cbn [nth hd] in *.
  now rewrite Hl, Hr, Hpx.
Qed.

(** C8.  On a non-empty template of [H] by [W] pixels, [crop_to(h, w)]
    returns the top-left [h] by [w] pixels, unchanged, when [h <= H] and
    [w <= W], and fails, returning no image, padded or otherwise, when [h]
    or [w] exceeds the template. *)
Theorem crop_to_exact_or_fails {A : Type} (d : A) (H W C h w : nat)
    (template : tensor3 A) :
  rect3 H W C template -> 0 < H -> 0 < W ->
  (h <= H -> w <= W ->
     exists out, crop_to template h w = Ok out /\ rect3 h w C out /\
       forall y x k, y < h -> x < w -> at3 d out y x k = at3 d template y x k) /\
  (H < h \/ W < w -> exists e, crop_to template h w = Raise e).
Proof.
  intros Hm HH HW. unfold crop_to. rewrite (rect3_shape3 Hm HH HW). split.
  - intros Hh Hw.
    destruct (Nat.leb_spec h H); [|lia]. destruct (Nat.leb_spec w W); [|lia].
    cbn [andb]. eexists. split; [reflexivity|].
    split; [now apply firstn_rows_rect3 with H W|].
    intros y x k Hy Hx. now apply firstn_rows_at.
  - intros Hbig. eexists.
    destruct (Nat.leb_spec h H); destruct (Nat.leb_spec w W);
      cbn [andb]; try reflexivity. lia.
Qed.

(** ** C3: the first maximum in row-major order *)

Lemma xltb_fin (a b : Qc) : xltb (Fin a) (Fin b) = true <-> (a < b)%Qc.
Proof.
  cbn [xltb]. rewrite Qclt_alt. destruct (Qccompare a b); split; congruence.
Qed.

Lemma beats_irrefl (x : xnum) : beats x x = false.
Proof.
  destruct x as [q| | |]; try reflexivity. unfold beats. cbn [is_nan].
  destruct (xltb (Fin q) (Fin q)) eqn:H; [|reflexivity].
  apply xltb_fin in H. exfalso. revert H. apply Qcle_not_lt, Qcle_refl.
Qed.

Lemma beats_fin (a b : Qc) : beats (Fin a) (Fin b) = true <-> (b < a)%Qc.
Proof. unfold beats. cbn [is_nan]. apply xltb_fin. Qed.

Lemma beats_fin_false (a b : Qc) : beats (Fin a) (Fin b) = false <-> (a <= b)%Qc.
Proof.
  split; intros H.
  - apply Qcnot_lt_le. intros Hlt. apply beats_fin in Hlt. congruence.
  - destruct (beats (Fin a) (Fin b)) eqn:Hb; [|reflexivity].
    apply beats_fin in Hb. exfalso. now apply (Qcle_not_lt _ _ H).
Qed.

(** [a] does not exceed [b] and [c] exceeds [b]: then [c] exceeds [a]. *)
Lemma beats_le_lt (a b c : xnum) :
  beats a b = false -> beats c b = true -> beats c a = true.
Proof.
  destruct a as [qa| | |], b as [qb| | |], c as [qc| | |];
    try (cbn; congruence); try reflexivity.
  intros Hab Hcb. apply beats_fin_false in Hab. apply beats_fin in Hcb.
  apply beats_fin. now apply Qcle_lt_trans with qb.
Qed.

Lemma beats_asym (a b : xnum) : beats a b = true -> beats b a = false.
Proof.
  destruct a as [qa| | |], b as [qb| | |]; try (cbn; congruence); try reflexivity.
  intros H. apply beats_fin in H. apply beats_fin_false. now apply Qclt_le_weak.
Qed.

Lemma beats_le_trans (a b c : xnum) :
  beats a b = false -> beats b c = false -> beats a c = false.
Proof.
  destruct a as [qa| | |], b as [qb| | |], c as [qc| | |];
    try (cbn; congruence); try reflexivity.
  intros Hab Hbc. apply beats_fin_false in Hab, Hbc.
  apply beats_fin_false. now apply Qcle_trans with qb.
Qed.

(** The scan of [np.argmax]: after the prefix [pre], whose best entry so far
    is at [besti], the scan of [l] ends on the first maximum of [pre ++ l]. *)
Lemma argmax_from_spec (d : xnum) :
  forall (l pre : list xnum) (besti : nat),
    besti < length pre ->
    (forall j, j < length pre -> beats (nth j pre d) (nth besti pre d) = false) ->
    (forall j, j < besti -> beats (nth besti pre d) (nth j pre d) = true) ->
    let r := argmax_from (nth besti pre d) besti (length pre) l in
    r < length (pre ++ l) /\
    (forall j, j < length (pre ++ l) ->
       beats (nth j (pre ++ l) d) (nth r (pre ++ l) d) = false) /\
    (forall j, j < r -> beats (nth r (pre ++ l) d) (nth j (pre ++ l) d) = true).
Proof.
  induction l as [|x l IH]; intros pre besti Hb Hmax Hfirst.
  - cbn [argmax_from]. rewrite app_nil_r. auto.
  - cbn [argmax_from].
    assert (Hlen : length (pre ++ [x]) = S (length pre))
      by (rewrite length_app; cbn; lia).
    assert (Hx : nth (length pre) (pre ++ [x]) d = x)
      by (rewrite app_nth2, Nat.sub_diag by lia; reflexivity).
    assert (Hold : forall j, j < length pre -> nth j (pre ++ [x]) d = nth j pre d)
      by (intros j Hj; now apply app_nth1).
    replace (pre ++ x :: l) with ((pre ++ [x]) ++ l)
      by (now rewrite <- app_assoc).
    destruct (beats x (nth besti pre d)) eqn:Hbx.
    + specialize (IH (pre ++ [x]) (length pre)).
      rewrite Hlen, Hx in IH. apply IH.
      * lia.
      * intros j Hj. destruct (Nat.eq_dec j (length pre)) as [->|Hne].
        -- rewrite Hx. apply beats_irrefl.
        -- rewrite Hold by lia. apply beats_asym.
           apply beats_le_lt with (nth besti pre d); [apply Hmax; lia|exact Hbx].
      * intros j Hj. rewrite Hold by lia.
        apply beats_le_lt with (nth besti pre d); [now apply Hmax|exact Hbx].
    + specialize (IH (pre ++ [x]) besti).
      rewrite Hlen, (Hold besti Hb) in IH. apply IH.
      * lia.
      * intros j Hj. destruct (Nat.eq_dec j (length pre)) as [->|Hne].
        -- now rewrite Hx.
        -- rewrite Hold by lia. apply Hmax. lia.
      * intros j Hj. rewrite Hold by lia. now apply Hfirst.
Qed.

Lemma np_argmax_spec (d : xnum) (m : matrix xnum) :
  concat m <> [] ->
  exists r, np_argmax m = Ok r /\ r < length (concat m) /\
    (forall j, j < length (concat m) ->
       beats (nth j (concat m) d) (nth r (concat m) d) = false) /\
    (forall j, j < r -> beats (nth r (concat m) d) (nth j (concat m) d) = true).
Proof.
  intros Hne. unfold np_argmax. destruct (concat m) as [|x l]; [congruence|].
  eexists. split; [reflexivity|].
  apply (argmax_from_spec d l [x] (besti:=0)).
  - cbn. lia.
  - intros j Hj. cbn in Hj. assert (j = 0) by lia. subst j. apply beats_irrefl.
  - intros j Hj. lia.
Qed.

(** Row-major flattening of a rectangular matrix. *)
Lemma concat_rect_length {A : Type} (w : nat) :
  forall (h : nat) (m : matrix A), rect2 h w m -> length (concat m) = h * w.
Proof.
  intros h m. revert h. induction m as [|r m IH]; intros h [Hl Hf].
  - cbn in *. subst h. reflexivity.
  - cbn in Hl. subst h. apply Forall_cons_iff in Hf. destruct Hf as [Hr Hm].
    cbn [concat]. rewrite length_app, (IH (length m)) by (now split).
    unfold rect1 in Hr. cbn. lia.
Qed.

Lemma concat_rect_nth {A : Type} (d : A) (w : nat) :
  forall (h : nat) (m : matrix A) (y x : nat),
    rect2 h w m -> y < h -> x < w ->
    nth (y * w + x) (concat m) d = at2 d m y x.
Proof.
  intros h m. revert h. induction m as [|r m IH]; intros h y x [Hl Hf] Hy Hx.
  - cbn in Hl. lia.
  - cbn in Hl. subst h. apply Forall_cons_iff in Hf. destruct Hf as [Hr Hm].
    unfold rect1 in Hr. cbn [concat]. destruct y as [|y].
    + cbn [Nat.mul Nat.add]. rewrite app_nth1 by lia. reflexivity.
    + rewrite app_nth2 by (cbn; lia).
      replace (S y * w + x - length r) with (y * w + x) by (cbn; lia).
      rewrite (IH (length m)); [reflexivity|now split|lia|exact Hx].
Qed.

Lemma rect2_shape2 {A : Type} (h w : nat) (m : matrix A) :
  rect2 h w m -> 0 < h -> shape2 m = (h, w).
Proof.
  intros Hm Hh. unfold shape2. assert (Hr := rect2_row Hm Hh).
  destruct Hm as [Hl _]. destruct m as [|r m]; [cbn in Hl; lia|].
  cbn [nth hd] in *. now rewrite Hl, Hr.
Qed.

(** [best_shift] returns as soon as the correlation surface is not empty. *)
Lemma best_shift_returns {E : Externals} (frame watermark corr : matrix xnum)
    (h w : nat) :
  cross_corr frame watermark = Ok corr -> rect2 h w corr -> 0 < h -> 0 < w ->
  exists dx dy, best_shift frame watermark = Ok (dx, dy).
Proof.
  intros Hcc Hm Hh Hw.
  assert (Hlen := concat_rect_length Hm).
  assert (Hne : concat corr <> []).
  { intros H0. rewrite H0 in Hlen. cbn in Hlen. nia. }
  destruct (np_argmax_spec NaN corr Hne) as [r [Har _]].
  unfold best_shift. rewrite Hcc. cbn [bind]. rewrite Har. cbn [bind]. eauto.
Qed.

(** What [beats] decides, in terms of the order on values: [x] does not
    beat [best] exactly when [best] is [NaN] or [x] is a value not above
    [best]; and [x] beats [best] exactly when [best] is a value and [x] is
    [NaN] or strictly above it. *)
Lemma beats_false_le (x best : xnum) :
  beats x best = false -> best = NaN \/ (x <> NaN /\ xle x best).
Proof.
  destruct x as [a| | |], best as [b| | |]; intros H;
    try (left; reflexivity); try discriminate H;
    right; (split; [discriminate|]); try exact I.
  now apply beats_fin_false.
Qed.

Lemma beats_true_lt (x best : xnum) :
  beats x best = true ->
  best <> NaN /\ (x = NaN \/ (xle best x /\ best <> x)).
Proof.
  destruct x as [a| | |], best as [b| | |]; intros H; try discriminate H;
    (split; [discriminate|]); try (left; reflexivity);
    right; (split; [|try discriminate]); try exact I.
  - apply beats_fin in H. now apply Qclt_le_weak.
  - apply beats_fin in H. intros Heq. injection Heq as ->.
    revert H. apply Qcle_not_lt, Qcle_refl.
Qed.

(** C3.  Whatever correlation surface [corr] (of [h] by [w] values) the
    detector computes for a frame and a watermark, [best_shift] returns
    [dx = max_x - watermark_width // 2] and
    [dy = max_y - watermark_height // 2], where [(max_y, max_x)] is the
    first position of the row-major scan that holds the maximum of [corr]:
    every value of [corr] is at most the value there, and every value at an
    earlier position is strictly below it.  The order is that of the
    numbers and infinities ([xle]); as in [np.argmax], a [NaN] counts as
    the largest value, so a surface that holds a [NaN] has its maximum at
    its first [NaN]. *)
Theorem best_shift_first_maximum {E : Externals} (frame watermark corr : matrix xnum)
    (h w : nat) :
  cross_corr frame watermark = Ok corr -> rect2 h w corr -> 0 < h -> 0 < w ->
  exists max_y max_x,
    max_y < h /\ max_x < w /\
    best_shift frame watermark =
      Ok ((Z.of_nat max_x - Z.of_nat (snd (shape2 watermark) / 2))%Z,
          (Z.of_nat max_y - Z.of_nat (fst (shape2 watermark) / 2))%Z) /\
    (forall y x, y < h -> x < w ->
       at2 NaN corr max_y max_x = NaN \/
       (at2 NaN corr y x <> NaN /\
        xle (at2 NaN corr y x) (at2 NaN corr max_y max_x))) /\
    (forall y x, y < h -> x < w -> y * w + x < max_y * w + max_x ->
       at2 NaN corr y x <> NaN /\
       (at2 NaN corr max_y max_x = NaN \/
        (xle (at2 NaN corr y x) (at2 NaN corr max_y max_x) /\
         at2 NaN corr y x <> at2 NaN corr max_y max_x))).
Proof.
  intros Hcc Hm Hh Hw.
  assert (Hlen := concat_rect_length Hm).
  assert (Hne : concat corr <> []).
  { intros H0. rewrite H0 in Hlen. cbn in Hlen. nia. }
  destruct (np_argmax_spec NaN corr Hne) as [r [Har [Hr [Hmax Hfirst]]]].
  rewrite Hlen in Hr, Hmax.
  assert (Hy : r / w < h) by (apply Nat.Div0.div_lt_upper_bound; lia).
  assert (Hx : r mod w < w) by (apply Nat.mod_upper_bound; lia).
  assert (Hrw : r = r / w * w + r mod w)
    by (rewrite (Nat.div_mod_eq r w) at 1; lia).
  assert (Hat : nth r (concat corr) NaN = at2 NaN corr (r / w) (r mod w)).
  { rewrite Hrw at 1. now apply concat_rect_nth with h. }
  exists (r / w), (r mod w). split; [exact Hy|]. split; [exact Hx|]. split.
  - unfold best_shift. rewrite Hcc. cbn [bind]. rewrite Har. cbn [bind].
    rewrite (rect2_shape2 Hm Hh). reflexivity.
  - split.
    + intros y x Hy' Hx'. rewrite <- Hat.
      rewrite <- (concat_rect_nth NaN Hm Hy' Hx').
      apply beats_false_le, Hmax. nia.
    + intros y x Hy' Hx' Hlt. rewrite <- Hat.
      rewrite <- (concat_rect_nth NaN Hm Hy' Hx').
      apply beats_true_lt, Hfirst. lia.
Qed.

(** ** Shapes through maps, sums and transforms *)

Lemma map2_rect2 {A B : Type} (f : A -> B) (h w : nat) (m : matrix A) :
  rect2 h w m -> rect2 h w (map2 f m).
Proof.
  intros [Hl Hf]. unfold map2. split; [now rewrite length_map|].
  apply Forall_map. eapply Forall_impl; [|exact Hf].
  intros r Hr. unfold rect1 in *. now rewrite length_map.
Qed.

Lemma map3_rect3 {A B : Type} (f : A -> B) (h w c : nat) (m : tensor3 A) :
  rect3 h w c m -> rect3 h w c (map3 f m).
Proof.
  intros [Hl Hf]. unfold map3. split; [now rewrite length_map|].
  apply Forall_map. eapply Forall_impl; [|exact Hf].
  intros r Hr. now apply map2_rect2.
Qed.

Lemma map4_rect4 {A B : Type} (f : A -> B) (t h w c : nat) (m : tensor4 A) :
  rect4 t h w c m -> rect4 t h w c (map4 f m).
Proof.
  intros [Hl Hf]. unfold map4. split; [now rewrite length_map|].
  apply Forall_map. eapply Forall_impl; [|exact Hf].
  intros r Hr. now apply map3_rect3.
Qed.

Lemma map4_all4 {A B : Type} (f : A -> B) (Q : B -> Prop) (m : tensor4 A) :
  (forall a, Q (f a)) -> all4 Q (map4 f m).
Proof.
  intros H. unfold all4, all3, map4, map3, map2.
  repeat (apply Forall_map; apply Forall_forall; intros ? _). apply H.
Qed.

(** Pixels reduced to one value each. *)
Lemma pixel_map_rect2 {A B : Type} (f : list A -> B) (h w c : nat) (m : tensor3 A) :
  rect3 h w c m -> rect2 h w (map (map f) m).
Proof.
  intros [Hl Hf]. split; [now rewrite length_map|].
  apply Forall_map. eapply Forall_impl; [|exact Hf].
  intros r [Hr _]. unfold rect1. now rewrite length_map.
Qed.

Lemma zip_with_length {A B C : Type} (f : A -> B -> C) :
  forall (xs : list A) (ys : list B) (n : nat),
    length xs = n -> length ys = n -> length (zip_with f xs ys) = n.
Proof.
  induction xs as [|x xs IH]; intros ys n Hx Hy.
  - cbn in *. now subst n.
  - destruct ys as [|y ys]; cbn in *; [now subst n|].
    destruct n; [discriminate|]. f_equal. apply IH; lia.
Qed.

Lemma add3_rect3 (h w c : nat) (a b : tensor3 xnum) :
  rect3 h w c a -> rect3 h w c b -> rect3 h w c (add3 a b).
Proof.
  intros Ha Hb. unfold add3.
  rewrite (zip_with_table _ [] [] a b (proj1 Ha) (proj1 Hb)).
  split; [apply tabulate_length|]. apply Forall_tabulate. intros y Hy.
  rewrite (zip_with_table _ [] [] _ _ (proj1 (rect3_row Ha Hy))
             (proj1 (rect3_row Hb Hy))).
  split; [apply tabulate_length|]. apply Forall_tabulate. intros x Hx.
  apply zip_with_length; now apply rect3_pixel with h w.
Qed.

Lemma mean0_rect3 (t h w c : nat) (v : tensor4 xnum) :
  rect4 t h w c v -> 0 < t -> rect3 h w c (mean0 v).
Proof.
  intros [Hl Hf] Ht. unfold mean0. destruct v as [|f fs]; [cbn in Hl; lia|].
  apply map3_rect3. apply Forall_cons_iff in Hf. destruct Hf as [Hf0 Hfs].
  clear Hl. revert f Hf0. induction fs as [|g fs IH]; intros f Hf0.
  - exact Hf0.
  - apply Forall_cons_iff in Hfs. destruct Hfs as [Hg Hfs]. cbn [fold_left].
    apply IH; [exact Hfs|]. now apply add3_rect3.
Qed.

Lemma roll01_rect2 {A : Type} (sy sx : Z) (h w : nat) (m : matrix A) :
  rect2 h w m -> rect2 h w (roll01 sy sx m).
Proof.
  intros [Hl Hf]. unfold roll01. split.
  - now rewrite length_map, roll1_length.
  - apply Forall_map. apply roll1_Forall.
    eapply Forall_impl; [|exact Hf]. intros row Hr.
    unfold rect1 in *. now rewrite roll1_length.
Qed.

Lemma fftshift2_rect2 {A : Type} (h w : nat) (m : matrix A) :
  rect2 h w m -> rect2 h w (fftshift2 m).
Proof. intros Hm. unfold fftshift2. cbn. now apply roll01_rect2. Qed.

Lemma bc2_same {A : Type} (d : A) (f : A -> A -> A) (h w : nat) (m1 m2 : matrix A) :
  rect2 h w m1 -> rect2 h w m2 ->
  bc2 f m1 m2 = Ok (table2 h w (fun y x => f (at2 d m1 y x) (at2 d m2 y x))).
Proof.
  intros H1 H2. apply broadcast_same with [] []; [apply H1|apply H2|].
  intros y Hy. apply bc1_same; now apply rect2_row with h.
Qed.

(** ** Success of elementwise operations, without a default element *)

Lemma zip_with_r_ok {A B C : Type} (f : A -> B -> result C) (P : C -> Prop) :
  forall (xs : list A) (ys : list B),
    length xs = length ys ->
    (forall x y, In x xs -> In y ys -> exists c, f x y = Ok c /\ P c) ->
    exists cs, zip_with_r f xs ys = Ok cs /\ length cs = length xs /\ Forall P cs.
Proof.
  induction xs as [|x xs IH]; intros ys Hlen Hf.
  - destruct ys; [|discriminate]. exists []. cbn. auto.
  - destruct ys as [|y ys]; [discriminate|]. cbn in Hlen.
    destruct (Hf x y (or_introl eq_refl) (or_introl eq_refl)) as [c [Hc Pc]].
    destruct (IH ys) as [cs [Hcs [Hl HP]]]; [lia| |].
    + intros x' y' Hx' Hy'. apply Hf; now right.
    + exists (c :: cs). cbn [zip_with_r]. rewrite Hc. cbn [bind]. rewrite Hcs.
      cbn. auto.
Qed.

Lemma broadcast_ok {A B C : Type} (f : A -> B -> result C) (P : C -> Prop)
    (xs : list A) (ys : list B) :
  length xs = length ys ->
  (forall x y, In x xs -> In y ys -> exists c, f x y = Ok c /\ P c) ->
  exists cs, broadcast f xs ys = Ok cs /\ length cs = length xs /\ Forall P cs.
Proof.
  intros Hlen Hf. unfold broadcast. rewrite Hlen, Nat.eqb_refl.
  rewrite <- Hlen. now apply zip_with_r_ok.
Qed.

Lemma bc2_ok {A : Type} (f : A -> A -> A) (h w : nat) (m1 m2 : matrix A) :
  rect2 h w m1 -> rect2 h w m2 ->
  exists r, bc2 f m1 m2 = Ok r /\ rect2 h w r.
Proof.
  intros [H1 F1] [H2 F2].
  destruct (broadcast_ok (bc1 f) (rect1 w) m1 m2) as [r [Hr [Hl HP]]].
  - congruence.
  - intros p q Hp Hq.
    assert (Lp : length p = w) by exact (proj1 (Forall_forall _ _) F1 p Hp).
    assert (Lq : length q = w) by exact (proj1 (Forall_forall _ _) F2 q Hq).
    destruct (broadcast_ok (fun a b => Ok (f a b)) (fun _ => True) p q)
      as [c [Hc [Hlc _]]]; [congruence| |].
    + intros a b _ _. now exists (f a b).
    + exists c. split; [exact Hc|]. unfold rect1. congruence.
  - exists r. split; [exact Hr|]. split; [congruence|exact HP].
Qed.

(** ** The pipeline returns *)

Section Pipeline.
Context {E : Externals} {OK : ExternalsOK E}.

Lemma cross_corr_ok (frame wm : matrix xnum) (h w : nat) :
  rect2 h w frame -> rect2 h w wm ->
  exists corr, cross_corr frame wm = Ok corr /\ rect2 h w corr.
Proof.
  intros Hf Hw. unfold cross_corr. cbn [_fft2 bind py_apply].
  destruct (bc2_ok cmul (np_fft2_shape Hf)
              (map2_rect2 cconj (np_fft2_shape Hw))) as [r [Hr Hrect]].
  rewrite (py_binop_same _ numpy _ _ Hr). cbn [bind _ifft2 _fftshift as_numpy_array].
  eexists. split; [reflexivity|].
  apply map2_rect2, fftshift2_rect2, np_ifft2_shape, Hrect.
Qed.

Lemma get_shifts_ok (l1 l2 : backend) (avg wm : tensor3 xnum) (h w c : nat) :
  rect3 h w 3 avg -> rect3 h w c wm -> 0 < h -> 0 < w ->
  exists dx dy, get_shifts (Array l1 avg) (Array l2 wm) = Ok (dx, dy).
Proof.
  intros Ha Hw Hh Hww. unfold get_shifts. cbn [as_numpy_array bind].
  rewrite (bc3_same NaN xsub Ha (blur_shape 20 Ha)). cbn [bind].
  destruct (blend_shape xhalf Hw) as [C' Hb].
  assert (Hzw : rect2 h w (as_grayscale_image
            (map3 (fun v => xsub v xhalf) (blend_images xhalf wm))))
    by (eapply gray_shape, map3_rect3, Hb).
  assert (Hza : rect2 h w (as_grayscale_image
            (table3 h w 3 (fun y x k => xsub (at3 NaN avg y x k)
               (at3 NaN (cv_gauss_blur avg 20) y x k)))))
    by (eapply gray_shape, table3_rect).
  destruct (cross_corr_ok Hza Hzw) as [corr [Hcc Hc]].
  destruct (best_shift_returns _ _ Hcc Hc Hh Hww) as [dx [dy Hbs]].
  rewrite Hbs. eauto.
Qed.

End Pipeline.

(** ** The asset and its crop *)

Lemma rect3_is_rgba (H W : nat) (tpl : tensor3 xnum) :
  rect3 H W 4 tpl -> is_rgba_image (Float tpl) = true.
Proof.
  intros [_ Hf]. cbn [is_rgba_image]. apply forallb_forall. intros row Hrow.
  apply forallb_forall. intros px Hpx. apply Nat.eqb_eq.
  assert (Hr : rect2 W 4 row) by exact (proj1 (Forall_forall _ _) Hf row Hrow).
  exact (proj1 (Forall_forall _ _) (proj2 Hr) px Hpx).
Qed.

Lemma get_watermark_image_ok {E : Externals} (H W : nat) (tpl : tensor3 xnum) :
  load_image "watermark.exr" = Float tpl -> rect3 H W 4 tpl ->
  _get_watermark_image = Ok tpl.
Proof.
  intros Hl Hr. unfold _get_watermark_image. rewrite Hl.
  now rewrite (rect3_is_rgba Hr).
Qed.

Lemma crop_all_pixels {A : Type} (P : list A -> Prop) (h w : nat) (m : tensor3 A) :
  all_pixels P m -> all_pixels P (map (firstn w) (firstn h m)).
Proof.
  intros Hm. unfold all_pixels. apply Forall_map.
  eapply Forall_impl; [|exact (proj1 (Forall_firstn_skipn h Hm))].
  intros row Hrow. exact (proj1 (Forall_firstn_skipn w Hrow)).
Qed.

Lemma like_array {E : Externals} {A B : Type} (lib : backend) (a : A) (b : B) :
  _like (Array numpy a) (Array lib b) = Ok (Array lib a).
Proof. now destruct lib. Qed.

Lemma roll_array {A : Type} (lib : backend) (a : tensor3 A) (s : Z * Z) :
  _roll (Array lib a) s = Ok (@Array (tensor3 A) lib (roll01 (fst s) (snd s) a)).
Proof. now destruct lib. Qed.

Lemma recover_table_in_unit (t h w : nat) (v : tensor4 xnum) (wm : tensor3 xnum) :
  rect4 t h w 3 v -> rect3 h w 4 wm ->
  all4 is_fin v -> all3 is_fin wm ->
  all_pixels (fun px => alpha_of px <> xone) wm ->
  all4 in_unit (table4 t h w 3 (fun i y x k =>
    recover1 (at4 NaN v i y x k) (at3 NaN wm y x k) (alpha_at wm y x))).
Proof.
  intros Hv Hw Hfv Hfw Ha. apply all4_table. intros i y x k Hi Hy Hx Hk.
  destruct (is_fin_inv _ (all4_at NaN Hv Hfv Hi Hy Hx Hk)) as [c ->].
  destruct (is_fin_inv _ (all3_at NaN (k:=k) Hw Hfw Hy Hx ltac:(lia))) as [r ->].
  assert (Hne : alpha_at wm y x <> xone) by exact (all_pixels_at Hw Ha Hy Hx).
  assert (Hq : exists a, alpha_at wm y x = Fin a)
    by exact (is_fin_inv _ (all3_at NaN (k:=3) Hw Hfw Hy Hx ltac:(lia))).
  destruct Hq as [a Hq]. rewrite Hq in *.
  apply recover1_in_unit. intros ->. apply Hne. unfold xone. now rewrite qc1.
Qed.

Section Frames.
Context {E : Externals} {OK : ExternalsOK E}.

(** Lines 163-180 return a floating video of the input's shape with values in
    [0, 1], on frames made of numbers and a valid template that covers them. *)
Lemma process_frames_ok (lib : backend) (t h w Ht Wt : nat) (v : tensor4 xnum) :
  0 < t -> 0 < h -> 0 < w -> h <= Ht -> w <= Wt ->
  rect4 t h w 3 v -> all4 is_fin v -> valid_template E Ht Wt ->
  exists out,
    process_frames (Array lib v) = Ok (Array lib (Float out)) /\
    rect4 t h w 3 out /\ all4 in_unit out.
Proof.
  intros Ht0 Hh0 Hw0 Hh Hw Hv Hfv [tpl [Hload [Ht3 [Hft Hat]]]].
  unfold process_frames. cbn [py_apply bind].
  rewrite (get_watermark_image_ok Hload Ht3). cbn [bind py_shape3].
  assert (Havg : rect3 h w 3 (mean0 v)) by (now apply mean0_rect3 with t).
  rewrite (rect3_shape3 Havg Hh0 Hw0). cbv beta iota.
  rewrite (crop_fits (h:=h) (w:=w) Ht3) by lia. cbn [bind].
  rewrite like_array. cbn [bind].
  set (wm0 := map (firstn w) (firstn h tpl)).
  assert (Hwm : rect3 h w 4 wm0) by (now apply firstn_rows_rect3 with Ht Wt).
  assert (Hfwm : all3 is_fin wm0)
    by exact (@crop_all_pixels _ (Forall is_fin) h w tpl Hft).
  assert (Hawm : all_pixels (fun px => alpha_of px <> xone) wm0)
    by (now apply crop_all_pixels).
  destruct (get_shifts_ok lib lib Havg Hwm Hh0 Hw0) as [dx [dy Hgs]].
  rewrite Hgs. cbn [bind]. cbv beta iota. rewrite roll_array. cbn [bind fst snd].
  rewrite (recover_background_table lib Hv (roll01_rect3 dy dx Hwm)).
  cbn [bind py_apply]. eexists. split; [reflexivity|].
  split; [apply table4_rect|].
  apply recover_table_in_unit; try assumption.
  - now apply roll01_rect3.
  - now apply roll01_all3.
  - now apply roll01_all_pixels.
Qed.

End Frames.

(** ** Axis permutations *)

Section RearrangeFacts.
Context {A : Type} (d : A).

Lemma chw_to_hwc_table (c h w : nat) (f : tensor3 A) :
  rect3 c h w f -> 0 < c -> 0 < h ->
  chw_to_hwc d f = table3 h w c (fun y x k => at3 d f k y x).
Proof.
  intros Hf Hc Hh. unfold chw_to_hwc. now rewrite (rect3_shape3 Hf Hc Hh).
Qed.

Lemma hwc_to_chw_table (h w c : nat) (f : tensor3 A) :
  rect3 h w c f -> 0 < h -> 0 < w ->
  hwc_to_chw d f = table3 c h w (fun k y x => at3 d f y x k).
Proof.
  intros Hf Hh Hw. unfold hwc_to_chw. now rewrite (rect3_shape3 Hf Hh Hw).
Qed.

(** Channel-last to channel-first and back is the identity. *)
Lemma chw_hwc_round_trip (h w c : nat) (f : tensor3 A) :
  rect3 h w c f -> 0 < h -> 0 < w -> 0 < c ->
  chw_to_hwc d (hwc_to_chw d f) = f.
Proof.
  intros Hf Hh Hw Hc. rewrite (hwc_to_chw_table Hf Hh Hw).
  rewrite (chw_to_hwc_table (table3_rect c h w _) Hc Hh).
  etransitivity; [|symmetry; exact (rect3_table d Hf)].
  apply table3_ext. intros y x k Hy Hx Hk. now rewrite table3_at.
Qed.

Lemma frames_map_eq (g1 g2 : tensor3 A -> tensor3 A) (P : tensor3 A -> Prop)
    (v : tensor4 A) :
  Forall P v -> (forall f, P f -> g1 f = g2 f) -> map g1 v = map g2 v.
Proof.
  intros HP Hg. apply map_ext_in. intros f Hf. apply Hg.
  exact (proj1 (Forall_forall _ _) HP f Hf).
Qed.

Lemma thwc_tchw_round_trip (t h w c : nat) (v : tensor4 A) :
  rect4 t h w c v -> 0 < h -> 0 < w -> 0 < c ->
  tchw_to_thwc d (thwc_to_tchw d v) = v.
Proof.
  intros [_ Hf] Hh Hw Hc. unfold tchw_to_thwc, thwc_to_tchw. rewrite map_map.
  rewrite <- (map_id v) at 2.
  apply (frames_map_eq _ _ Hf). intros f Hr. now apply chw_hwc_round_trip with h w c.
Qed.

Lemma tchw_to_thwc_rect (t c h w : nat) (v : tensor4 A) :
  rect4 t c h w v -> 0 < c -> 0 < h -> rect4 t h w c (tchw_to_thwc d v).
Proof.
  intros [Hl Hf] Hc Hh. unfold tchw_to_thwc. split; [now rewrite length_map|].
  apply Forall_map. eapply Forall_impl; [|exact Hf]. intros f Hr.
  rewrite (chw_to_hwc_table Hr Hc Hh). apply table3_rect.
Qed.

Lemma thwc_to_tchw_rect (t h w c : nat) (v : tensor4 A) :
  rect4 t h w c v -> 0 < h -> 0 < w -> rect4 t c h w (thwc_to_tchw d v).
Proof.
  intros [Hl Hf] Hh Hw. unfold thwc_to_tchw. split; [now rewrite length_map|].
  apply Forall_map. eapply Forall_impl; [|exact Hf]. intros f Hr.
  rewrite (hwc_to_chw_table Hr Hh Hw). apply table3_rect.
Qed.

Lemma all3_table (P : A -> Prop) (h w c : nat) (f : nat -> nat -> nat -> A) :
  (forall y x k, y < h -> x < w -> k < c -> P (f y x k)) ->
  all3 P (table3 h w c f).
Proof.
  intros H. apply Forall_tabulate. intros y Hy.
  apply Forall_tabulate. intros x Hx.
  apply Forall_tabulate. intros k Hk. now apply H.
Qed.

Lemma all4_frames (P : A -> Prop) (Q : tensor3 A -> Prop) (g : tensor3 A -> tensor3 A)
    (v : tensor4 A) :
  Forall Q v -> all4 P v -> (forall f, Q f -> all3 P f -> all3 P (g f)) ->
  all4 P (map g v).
Proof.
  intros HQ HP Hg. unfold all4. apply Forall_map. apply Forall_forall.
  intros f Hin. apply Hg.
  - exact (proj1 (Forall_forall _ _) HQ f Hin).
  - exact (proj1 (Forall_forall _ _) HP f Hin).
Qed.

Lemma tchw_to_thwc_all4 (P : A -> Prop) (t c h w : nat) (v : tensor4 A) :
  rect4 t c h w v -> 0 < c -> 0 < h -> all4 P v -> all4 P (tchw_to_thwc d v).
Proof.
  intros [_ Hf] Hc Hh HP. unfold tchw_to_thwc.
  apply (all4_frames _ Hf HP). intros f Hr Hpf.
  rewrite (chw_to_hwc_table Hr Hc Hh). apply all3_table.
  intros y x k Hy Hx Hk. now apply (all3_at d Hr Hpf).
Qed.

Lemma thwc_to_tchw_all4 (P : A -> Prop) (t h w c : nat) (v : tensor4 A) :
  rect4 t h w c v -> 0 < h -> 0 < w -> all4 P v -> all4 P (thwc_to_tchw d v).
Proof.
  intros [_ Hf] Hh Hw HP. unfold thwc_to_tchw.
  apply (all4_frames _ Hf HP). intros f Hr Hpf.
  rewrite (hwc_to_chw_table Hr Hh Hw). apply all3_table.
  intros k y x Hk Hy Hx. now apply (all3_at d Hr Hpf).
Qed.

End RearrangeFacts.

(** An axis permutation commutes with an elementwise map. *)
Lemma tchw_to_thwc_map4 {A B : Type} (da : A) (db : B) (g : A -> B)
    (t c h w : nat) (v : tensor4 A) :
  rect4 t c h w v -> 0 < c -> 0 < h ->
  tchw_to_thwc db (map4 g v) = map4 g (tchw_to_thwc da v).
Proof.
  intros [_ Hf] Hc Hh. unfold tchw_to_thwc, map4. rewrite !map_map.
  apply map_ext_in. intros f Hin.
  assert (Hr : rect3 c h w f) by exact (proj1 (Forall_forall _ _) Hf f Hin).
  rewrite (chw_to_hwc_table db (map3_rect3 g Hr) Hc Hh).
  rewrite (chw_to_hwc_table da Hr Hc Hh), map3_table.
  apply table3_ext. intros y x k Hy Hx Hk. now apply map3_at with c h w.
Qed.

(** ** C5, C6, C7: the orchestrator *)

Lemma scale_byte_fin (b : byte) : is_fin (scale_byte b).
Proof.
  destruct (in_unit_fin (scaled_byte_in_unit b)) as [q [Hq _]].
  unfold scale_byte. rewrite Hq. exact I.
Qed.

Lemma is_uint8_array {T : Type -> Type} (lib : backend) (a : ndarray T) :
  _is_uint8 (Array lib a) =
  Ok (match a with UInt8 _ => true | Float _ => false end).
Proof. now destruct lib. Qed.

Lemma resolve_form {A : Type} (lib : backend) (a : A) (form : option string) :
  match form with
  | None => _default_form (Array lib a)
  | Some f => Ok f
  end = Ok (layout_of lib form).
Proof. destruct form; [reflexivity|]. now destruct lib. Qed.

Lemma form_ok_cases (f : string) :
  form_ok f = true -> f = "TCHW"%string \/ f = "THWC"%string.
Proof.
  unfold form_ok. intros H. apply orb_true_iff in H.
  destruct H as [H|H]; apply String.eqb_eq in H; auto.
Qed.

Section Orchestrator.
Context {E : Externals}.

(** Line 160-161 and what follows: a [uint8] video is processed as the
    floating video of its levels over 255, a floating video as it is. *)
Lemma remove_watermark_thwc_uint8 (lib : backend) (d : tensor4 byte) :
  remove_watermark_thwc (Array lib (UInt8 d)) =
  process_frames (Array lib (map4 scale_byte d)).
Proof. unfold remove_watermark_thwc. now rewrite is_uint8_array. Qed.

Lemma remove_watermark_thwc_float (lib : backend) (d : tensor4 xnum) :
  remove_watermark_thwc (Array lib (Float d)) = process_frames (Array lib d).
Proof. unfold remove_watermark_thwc. now rewrite is_uint8_array. Qed.

Lemma remove_watermark_thwc_ok {OK : ExternalsOK E} (lib : backend)
    (a : ndarray tensor4) (t h w Ht Wt : nat) :
  0 < t -> 0 < h -> 0 < w -> h <= Ht -> w <= Wt ->
  valid_template E Ht Wt -> finite_values a -> has_shape a (t, h, w, 3) ->
  exists out,
    remove_watermark_thwc (Array lib a) = Ok (Array lib (Float out)) /\
    rect4 t h w 3 out /\ all4 in_unit out.
Proof.
  intros Ht0 Hh0 Hw0 Hh Hw Htpl Hfin Hs. destruct a as [d|d]; cbn in Hs, Hfin.
  - rewrite remove_watermark_thwc_uint8.
    apply process_frames_ok with Ht Wt; try assumption.
    + now apply map4_rect4.
    + apply map4_all4. apply scale_byte_fin.
  - rewrite remove_watermark_thwc_float.
    now apply process_frames_ok with Ht Wt.
Qed.

(** C5.  For a video of [t] frames of [h] by [w] RGB pixels, [uint8] or
    floating with numbers as values, in the layout given or the default of
    its backend, and a valid template that covers the frame,
    [remove_watermark] returns an array of the same backend, shape and layout,
    of floating element type, with every element in [0, 1]. *)
Theorem remove_watermark_output {OK : ExternalsOK E} (lib : backend)
    (a : ndarray tensor4) (form : option string) (t h w Ht Wt : nat) :
  0 < t -> 0 < h -> 0 < w -> h <= Ht -> w <= Wt ->
  valid_template E Ht Wt -> finite_values a ->
  form_ok (layout_of lib form) = true ->
  has_shape a (video_dims (layout_of lib form) t h w) ->
  exists out,
    remove_watermark (Array lib a) form = Ok (Array lib (Float out)) /\
    has_shape (Float out) (video_dims (layout_of lib form) t h w) /\
    all4 in_unit out.
Proof.
  intros Ht0 Hh0 Hw0 Hh Hw Htpl Hfin Hform Hs.
  unfold remove_watermark. rewrite resolve_form. cbn [bind].
  rewrite Hform. cbn [py_assert bind].
  unfold video_dims in *.
  destruct (String.eqb (layout_of lib form) "TCHW") eqn:Hl.
  - cbn [py_apply bind].
    assert (H3 : 0 < 3) by lia.
    destruct (remove_watermark_thwc_ok lib (rearrange_tchw_thwc a)
                Ht0 Hh0 Hw0 Hh Hw Htpl) as [out [Hout [Hr Hu]]].
    + destruct a as [d|d]; cbn in *; [exact I|].
      now apply tchw_to_thwc_all4 with t 3 h w.
    + destruct a as [d|d]; cbn in *; now apply tchw_to_thwc_rect.
    + rewrite Hout. cbn [bind py_apply rearrange_thwc_tchw].
      eexists. split; [reflexivity|]. split.
      * cbn. now apply thwc_to_tchw_rect.
      * now apply thwc_to_tchw_all4 with t h w 3.
  - destruct (remove_watermark_thwc_ok lib a Ht0 Hh0 Hw0 Hh Hw Htpl Hfin Hs)
      as [out [Hout [Hr Hu]]].
    exists out. auto.
Qed.

Lemma rearrange_round_trip (a : ndarray tensor4) (t h w c : nat) :
  has_shape a (t, h, w, c) -> 0 < h -> 0 < w -> 0 < c ->
  rearrange_tchw_thwc (rearrange_thwc_tchw a) = a.
Proof.
  intros Hs Hh Hw Hc. destruct a as [d|d]; cbn in *; f_equal;
    now apply thwc_tchw_round_trip with t h w c.
Qed.

(** C6.  Running [remove_watermark] on the channel-first arrangement of a
    video, with layout TCHW, gives exactly the channel-first arrangement of
    what it gives on the channel-last video with layout THWC; when one call
    fails the other fails with the same exception. *)
Theorem layout_round_trip (lib : backend) (a : ndarray tensor4) (t h w c : nat) :
  has_shape a (t, h, w, c) -> 0 < h -> 0 < w -> 0 < c ->
  remove_watermark (Array lib (rearrange_thwc_tchw a)) (Some "TCHW"%string) =
  (recovered <- remove_watermark (Array lib a) (Some "THWC"%string) ;;
   py_apply rearrange_thwc_tchw recovered).
Proof.
  intros Hs Hh Hw Hc. unfold remove_watermark.
  cbn [bind form_ok String.eqb Ascii.eqb Bool.eqb orb py_assert py_apply].
  now rewrite rearrange_round_trip with (t:=t) (h:=h) (w:=w) (c:=c).
Qed.

Lemma remove_watermark_uint8_float (lib : backend) (d : tensor4 byte)
    (form : option string) (n1 n2 n3 n4 : nat) :
  rect4 n1 n2 n3 n4 d -> 0 < n2 -> 0 < n3 ->
  remove_watermark (Array lib (UInt8 d)) form =
  remove_watermark (Array lib (Float (map4 scale_byte d))) form.
Proof.
  intros Hd H2 H3. unfold remove_watermark. rewrite !resolve_form. cbn [bind].
  destruct (py_assert (form_ok (layout_of lib form)) _); [|reflexivity].
  cbn [bind]. destruct (String.eqb (layout_of lib form) "TCHW").
  - cbn [py_apply bind rearrange_tchw_thwc].
    rewrite remove_watermark_thwc_uint8, remove_watermark_thwc_float.
    now rewrite (tchw_to_thwc_map4 x00 NaN scale_byte Hd H2 H3).
  - now rewrite remove_watermark_thwc_uint8, remove_watermark_thwc_float.
Qed.

Lemma scale_byte_128 : scale_byte x80 = Fin (Q2Qc (128 # 255)).
Proof.
  unfold scale_byte, xof_byte, x255. rewrite xdiv_fin by qc_neq.
  f_equal.
Qed.

(** What [video / 255] gives on one [uint8] level: the rational
    [level / 255]. *)
Lemma scale_byte_level (b : byte) :
  scale_byte b = Fin (Q2Qc (Z.of_N (Byte.to_N b) # 255)).
Proof.
  unfold scale_byte, xof_byte, x255. rewrite xdiv_fin by qc_neq.
  destruct b; reflexivity.
Qed.

Lemma map4_ext {A B : Type} (f g : A -> B) (d : tensor4 A) :
  (forall a, f a = g a) -> map4 f d = map4 g d.
Proof.
  intros H. unfold map4, map3, map2.
  repeat (apply map_ext; intros ?). apply H.
Qed.

(** C7.  A [uint8] video is divided by 255 before anything else: it is
    processed as the floating video whose value at each position is the
    rational [level / 255] of the level there, which lies in [0, 1]; a
    floating video is processed as it is.  So a [uint8] video and the
    floating video of its levels over 255 are treated alike:
    [remove_watermark] returns the same result (or raises the same
    exception) on both, in particular on a constant 128 and a constant
    128/255. *)
Theorem uint8_scaled_by_255 :
  (forall lib d,
     remove_watermark_thwc (Array lib (UInt8 d)) =
     process_frames
       (Array lib (map4 (fun b => Fin (Q2Qc (Z.of_N (Byte.to_N b) # 255))) d))) /\
  (forall b : byte, in_unit (Fin (Q2Qc (Z.of_N (Byte.to_N b) # 255)))) /\
  (forall lib d,
     remove_watermark_thwc (Array lib (Float d)) = process_frames (Array lib d)) /\
  (forall lib d form n1 n2 n3 n4,
     rect4 n1 n2 n3 n4 d -> 0 < n2 -> 0 < n3 ->
     remove_watermark (Array lib (UInt8 d)) form =
     remove_watermark
       (Array lib (Float (map4 (fun b => Fin (Q2Qc (Z.of_N (Byte.to_N b) # 255))) d)))
       form) /\
  (forall lib form n1 n2 n3 n4,
     0 < n2 -> 0 < n3 ->
     remove_watermark
       (Array lib (UInt8 (table4 n1 n2 n3 n4 (fun _ _ _ _ => x80)))) form =
     remove_watermark
       (Array lib (Float (table4 n1 n2 n3 n4
                            (fun _ _ _ _ => Fin (Q2Qc (128 # 255)))))) form).
Proof.
  split.
  { intros lib d. rewrite remove_watermark_thwc_uint8.
    now rewrite (map4_ext scale_byte _ d scale_byte_level). }
  split.
  { intros b. rewrite <- scale_byte_level. apply scaled_byte_in_unit. }
  split; [exact remove_watermark_thwc_float|].
  split.
  { intros lib d form n1 n2 n3 n4 Hd H2 H3.
    rewrite (remove_watermark_uint8_float lib form Hd H2 H3).
    now rewrite (map4_ext scale_byte _ d scale_byte_level). }
  intros lib form n1 n2 n3 n4 H2 H3.
  rewrite (remove_watermark_uint8_float lib form (table4_rect n1 n2 n3 n4 _) H2 H3).
  rewrite map4_table.
  rewrite (@table4_ext _ n1 n2 n3 n4 (fun _ _ _ _ => scale_byte x80)
             (fun _ _ _ _ => Fin (Q2Qc (128 # 255))));
    [reflexivity|intros; apply scale_byte_128].
Qed.

End Orchestrator.

(** ** C2: known composition *)




Lemma in_unit_half : in_unit xhalf.
Proof. split; vm_compute; discriminate. Qed.

Lemma in_unit_zero : in_unit xzero.
Proof. split; vm_compute; discriminate. Qed.

Lemma in_unit_one : in_unit xone.
Proof. split; vm_compute; discriminate. Qed.


Create HintDb unit_values.
#[local] Hint Resolve in_unit_half in_unit_zero in_unit_one : unit_values.

Lemma gray_1x2_rect : rect4 1 1 2 3 gray_1x2.
Proof. repeat constructor. Qed.

Lemma gray_1x2_unit : all4 in_unit gray_1x2.
Proof. repeat (apply Forall_cons || apply Forall_nil); auto with unit_values. Qed.

Lemma transparent_1x2_rect : rect3 1 2 4 transparent_1x2.
Proof. repeat constructor. Qed.


Lemma transparent_1x2_alpha :
  all_pixels (fun px => alpha_of px = xzero) transparent_1x2.
Proof. repeat constructor. Qed.






(** ** The executable instance keeps the shape promises *)

Lemma crop_to_fits {A : Type} (img : tensor3 A) (H W C h w : nat) :
  rect3 H W C img -> 0 < H -> h <= H -> w <= W ->
  crop_to img h w = Ok (map (firstn w) (firstn h img)).
Proof.
  intros Hm HH Hh Hw. unfold crop_to, shape3.
  assert (Hrow := rect3_row Hm HH). destruct Hm as [Hl _].
  destruct img as [|r img]; [cbn in Hl; lia|]. cbn [nth hd] in *.
  rewrite Hl, (proj1 Hrow).
  destruct (Nat.leb_spec h H); [|lia]. destruct (Nat.leb_spec w W); [|lia].
  reflexivity.
Qed.

Lemma mean_blur_rect3 (img : tensor3 xnum) (h w c : nat) :
  rect3 h w c img -> rect3 h w c (mean_blur img).
Proof.
  intros [Hl Hf]. unfold mean_blur, map2. split; [now rewrite length_map|].
  apply Forall_map. eapply Forall_impl; [|exact Hf]. intros row [Hr Hp].
  split; [now rewrite length_map|]. apply Forall_map.
  eapply Forall_impl; [|exact Hp]. intros px Hpx.
  unfold rect1 in *. now rewrite tabulate_length.
Qed.

Lemma dft_axis_length {A : Type} (add sub : A -> A -> A) (u : A -> A) (l : list A) :
  length (dft_axis add sub u l) = length l.
Proof.
  destruct l as [|a [|b [|c l]]]; cbn [dft_axis]; try reflexivity.
  now rewrite length_map.
Qed.

Lemma small_dft2_rect (h w : nat) (m : matrix xnum) :
  rect2 h w m -> rect2 h w (small_dft2 m).
Proof.
  intros Hm. unfold small_dft2.
  assert (Hrows : rect2 h w (map (dft_axis xadd xsub (fun _ => NaN)) m)).
  { destruct Hm as [Hl Hf]. split; [now rewrite length_map|].
    apply Forall_map. eapply Forall_impl; [|exact Hf]. intros r Hr.
    unfold rect1 in *. now rewrite dft_axis_length. }
  destruct (map (dft_axis xadd xsub (fun _ => NaN)) m) as [|r1 [|r2 [|r3 rest]]];
    cbn [dft_axis]; try exact Hrows.
  - destruct Hrows as [Hl Hf]. split; [exact Hl|].
    apply Forall_cons_iff in Hf. destruct Hf as [H1 Hf].
    apply Forall_cons_iff in Hf. destruct Hf as [H2 _].
    repeat constructor; now apply zip_with_length.
  - exact (map2_rect2 (fun _ => NaN) Hrows).
Qed.

Lemma small_idft2_rect (h w : nat) (m : matrix xnum) :
  rect2 h w m -> rect2 h w (small_idft2 m).
Proof.
  intros Hm. unfold small_idft2. destruct (shape2 m) as [h' w'].
  now apply map2_rect2, small_dft2_rect.
Qed.

Lemma small_externals_ok : ExternalsOK small_externals.
Proof.
  constructor; cbn.
  - intros img H W C h w. apply crop_to_fits.
  - intros g img H W C Hm. exists C. now apply map3_rect3.
  - intros img _ H W C. apply mean_blur_rect3.
  - intros img H W C. apply pixel_map_rect2.
  - intros m H W. apply small_dft2_rect.
  - intros m H W. apply small_idft2_rect.
Qed.

(** ** Comparing computed arrays *)

Lemma xeqb_sound (x y : xnum) : xeqb x y = true -> x = y.
Proof.
  destruct x as [a| | |], y as [b| | |]; cbn; try discriminate; try reflexivity.
  intros H. f_equal. now apply Qc_eq_bool_correct.
Qed.

Lemma xeqb_complete (x y : xnum) : x = y -> xeqb x y = true.
Proof.
  intros <-. destruct x as [a| | |]; try reflexivity. cbn.
  unfold Qc_eq_bool. now destruct (Qc_eq_dec a a).
Qed.

Lemma list_eqb_sound {A : Type} (eqb : A -> A -> bool) :
  (forall a b, eqb a b = true -> a = b) ->
  forall xs ys, list_eqb eqb xs ys = true -> xs = ys.
Proof.
  intros Heq. induction xs as [|x xs IH]; intros [|y ys] H; cbn in H;
    try discriminate; [reflexivity|].
  apply andb_true_iff in H. destruct H as [Hx Hxs].
  f_equal; [now apply Heq|now apply IH].
Qed.

Lemma tensor4_eqb_sound (a b : tensor4 xnum) : tensor4_eqb a b = true -> a = b.
Proof. repeat apply list_eqb_sound. exact xeqb_sound. Qed.

Ltac xnum_neq :=
  let H := fresh in
  intro H; apply xeqb_complete in H; vm_compute in H; discriminate.

(** ** Facts about the sample arrays *)

Lemma gray_2x2_rect : rect4 1 2 2 3 gray_2x2.
Proof. repeat constructor. Qed.

Lemma gray_2x2_fin : all4 is_fin gray_2x2.
Proof. repeat constructor. Qed.

Lemma gray_1x2_fin : all4 is_fin gray_1x2.
Proof. repeat constructor. Qed.

Lemma patch_1x2_rect : rect3 1 2 4 patch_1x2.
Proof. repeat constructor. Qed.

Lemma patch_1x2_fin : all3 is_fin patch_1x2.
Proof. repeat constructor. Qed.


Lemma patch_1x2_below_one :
  all_pixels (fun px => xltb (alpha_of px) xone = true) patch_1x2.
Proof. repeat constructor. Qed.

Lemma transparent_1x2_fin : all3 is_fin transparent_1x2.
Proof. repeat constructor. Qed.

Lemma small_template_valid : valid_template small_externals 2 2.
Proof.
  exists small_template. split; [reflexivity|].
  split; [repeat constructor|]. split; [repeat constructor|].
  repeat (apply Forall_cons || apply Forall_nil); xnum_neq.
Qed.

Lemma level128_1x2_rect : rect4 1 1 2 3 level128_1x2.
Proof. repeat constructor. Qed.

(** ** The model at work on a 2 by 2 frame

    With the executable instance of the imports: the half-transparent white
    pixel of [small_template], composited over flat gray at each of the four
    shifts of a 2 by 2 frame, is found at that shift, and the gray frame is
    recovered. *)

Example small_detects_every_shift :
  forall dx dy, In dx [0%Z; (-1)%Z] -> In dy [0%Z; (-1)%Z] ->
  get_shifts (E:=small_externals)
    (Array numpy (mean0 (synthesize gray_2x2 (roll01 dy dx small_template))))
    (Array numpy small_template) = Ok (dx, dy).
Proof.
  intros dx dy [<-|[<-|[]]] [<-|[<-|[]]]; vm_compute; reflexivity.
Qed.

Example small_recovers_gray :
  remove_watermark (E:=small_externals)
    (Array numpy (Float (synthesize gray_2x2 (roll01 (-1) 0 small_template))))
    None = Ok (Array numpy (Float gray_2x2)).
Proof.
  destruct (remove_watermark (E:=small_externals)
    (Array numpy (Float (synthesize gray_2x2 (roll01 (-1) 0 small_template))))
    None) as [[lib [d|out]|]|e] eqn:Hrun;
    try (vm_compute in Hrun; discriminate).
  assert (Hlib : lib = numpy)
    by (destruct lib; [reflexivity|vm_compute in Hrun; discriminate]).
  subst lib. do 3 f_equal. apply tensor4_eqb_sound.
  assert (Hout : match remove_watermark (E:=small_externals)
      (Array numpy (Float (synthesize gray_2x2 (roll01 (-1) 0 small_template))))
      None with
    | Ok (Array _ (Float o)) => tensor4_eqb o gray_2x2
    | _ => false
    end = true) by (vm_compute; reflexivity).
  now rewrite Hrun in Hout.
Qed.

Example autocorrelation_peak_is_centred :
  best_shift (E:=small_externals) [[xone; xzero]] [[xone; xzero]] = Ok (0%Z, 0%Z).
Proof. vm_compute. reflexivity. Qed.

(** The correlation of the pattern [[1; 0]] with itself, computed: the peak
    is at the centre, the second entry. *)
Lemma small_autocorrelation :
  cross_corr (E:=small_externals) [[xone; xzero]] [[xone; xzero]] =
  Ok [[xzero; xone]].
Proof.
  assert (H : match cross_corr (E:=small_externals)
                      [[xone; xzero]] [[xone; xzero]] with
              | Ok c => list_eqb (list_eqb xeqb) c [[xzero; xone]]
              | Raise _ => false
              end = true) by (vm_compute; reflexivity).
  destruct (cross_corr _ _) as [c|e]; [|discriminate H]. f_equal.
  revert H. repeat apply list_eqb_sound. exact xeqb_sound.
Qed.

Lemma small_autocorrelation_rect : rect2 1 2 [[xzero; xone]].
Proof. repeat constructor. Qed.

(** ** The theorems at concrete inputs *)

Lemma recover_background_formula_witness :
  exists out,
    recover_background (Array numpy gray_1x2) (Array numpy patch_1x2) =
      Ok (Array numpy out) /\
    rect4 1 1 2 3 out /\
    forall i y x k, i < 1 -> y < 1 -> x < 2 -> k < 3 ->
      at4 NaN out i y x k =
      clip1 xzero xone
        (xdiv (xsub (at4 NaN gray_1x2 i y x k)
                    (xmul (at3 NaN patch_1x2 y x 3) (at3 NaN patch_1x2 y x k)))
              (xsub xone (at3 NaN patch_1x2 y x 3))).
Proof.
  exact (recover_background_formula numpy gray_1x2_rect patch_1x2_rect).
Defined.


Lemma best_shift_first_maximum_witness :
  exists max_y max_x,
    max_x = 1 /\ max_y < 1 /\ max_x < 2 /\
    best_shift (E:=small_externals) [[xone; xzero]] [[xone; xzero]] =
      Ok ((Z.of_nat max_x - 1)%Z, (Z.of_nat max_y - 0)%Z) /\
    (forall y x, y < 1 -> x < 2 ->
       at2 NaN [[xzero; xone]] max_y max_x = NaN \/
       (at2 NaN [[xzero; xone]] y x <> NaN /\
        xle (at2 NaN [[xzero; xone]] y x) (at2 NaN [[xzero; xone]] max_y max_x))) /\
    (forall y x, y < 1 -> x < 2 -> y * 2 + x < max_y * 2 + max_x ->
       at2 NaN [[xzero; xone]] y x <> NaN /\
       (at2 NaN [[xzero; xone]] max_y max_x = NaN \/
        (xle (at2 NaN [[xzero; xone]] y x) (at2 NaN [[xzero; xone]] max_y max_x) /\
         at2 NaN [[xzero; xone]] y x <> at2 NaN [[xzero; xone]] max_y max_x))).
Proof.
  destruct (best_shift_first_maximum (E:=small_externals) _ _
              small_autocorrelation small_autocorrelation_rect
              (Nat.lt_0_succ 0) (Nat.lt_0_succ 1))
    as [my [mx [Hy [Hx [Hbs [Hmax Hfirst]]]]]].
  exists my, mx. split; [|auto].
  assert (Hy0 : my = 0) by lia. subst my.
  destruct mx as [|[|mx]]; [exfalso|reflexivity|lia].
  destruct (Hmax 0 1 (Nat.lt_0_succ 0) (Nat.lt_succ_diag_r 1)) as [Hn|[_ Hle]].
  - discriminate Hn.
  - exact (Hle eq_refl).
Defined.

Lemma no_watermark_identity_witness :
  recover_background (Array numpy gray_1x2) (Array numpy transparent_1x2) =
  Ok (Array numpy gray_1x2).
Proof.
  exact (no_watermark_identity numpy gray_1x2_rect transparent_1x2_rect
           gray_1x2_unit transparent_1x2_fin transparent_1x2_alpha).
Defined.

Lemma remove_watermark_output_witness :
  exists out,
    remove_watermark (E:=small_externals) (Array numpy (Float gray_2x2)) None =
      Ok (Array numpy (Float out)) /\
    rect4 1 2 2 3 out /\ all4 in_unit out.
Proof.
  exact (remove_watermark_output (E:=small_externals) (OK:=small_externals_ok)
           numpy (Float gray_2x2) None (t:=1) (h:=2) (w:=2) (Ht:=2) (Wt:=2)
           (Nat.lt_0_succ 0) (Nat.lt_0_succ 1) (Nat.lt_0_succ 1)
           (Nat.le_refl 2) (Nat.le_refl 2)
           small_template_valid gray_2x2_fin eq_refl gray_2x2_rect).
Defined.

Lemma layout_round_trip_witness :
  remove_watermark (E:=small_externals)
    (Array numpy (rearrange_thwc_tchw (Float gray_2x2))) (Some "TCHW"%string) =
  (recovered <- remove_watermark (E:=small_externals)
                  (Array numpy (Float gray_2x2)) (Some "THWC"%string) ;;
   py_apply rearrange_thwc_tchw recovered).
Proof.
  exact (layout_round_trip (E:=small_externals) numpy (Float gray_2x2) 1
           (h:=2) (w:=2) (c:=3) gray_2x2_rect
           (Nat.lt_0_succ 1) (Nat.lt_0_succ 1) (Nat.lt_0_succ 2)).
Defined.

Lemma uint8_scaled_by_255_witness :
  remove_watermark (E:=small_externals) (Array numpy (UInt8 level128_1x2)) None =
  remove_watermark (E:=small_externals)
    (Array numpy
       (Float (map4 (fun b => Fin (Q2Qc (Z.of_N (Byte.to_N b) # 255)))
                 level128_1x2))) None.
Proof.
  exact (proj1 (proj2 (proj2 (proj2 (uint8_scaled_by_255 (E:=small_externals)))))
           numpy level128_1x2 None 1 1 2 3 level128_1x2_rect
           (Nat.lt_0_succ 0) (Nat.lt_0_succ 1)).
Defined.

Lemma crop_to_exact_or_fails_witness :
  (exists out, crop_to small_template 1 2 = Ok out /\ rect3 1 2 4 out /\
     forall y x k, y < 1 -> x < 2 ->
       at3 NaN out y x k = at3 NaN small_template y x k) /\
  (exists e, crop_to small_template 3 2 = Raise e).
Proof.
  assert (Hr : rect3 2 2 4 small_template) by (repeat constructor).
  split.
  - exact (proj1 (crop_to_exact_or_fails NaN 1 2 Hr
                    (Nat.lt_0_succ 1) (Nat.lt_0_succ 1))
             (Nat.le_succ_diag_r 1) (Nat.le_refl 2)).
  - exact (proj2 (crop_to_exact_or_fails NaN 3 2 Hr
                    (Nat.lt_0_succ 1) (Nat.lt_0_succ 1))
             (or_introl (Nat.lt_succ_diag_r 2))).
Defined.

Lemma format_adapter_rejects_unsupported_witness :
  _fft2 (E:=small_externals) OtherObject = Raise unsupported.
Proof.
  exact (proj1 (format_adapter_rejects_unsupported (E:=small_externals))
           OtherObject eq_refl eq_refl).
Defined.

Lemma recovery_division_safe_witness :
  (forall y x, y < 1 -> x < 2 ->
     zero_divisor (xsub xone (alpha_at patch_1x2 y x)) = false) /\
  exists out,
    recover_background (Array numpy gray_1x2) (Array numpy patch_1x2) =
      Ok (Array numpy out) /\
    rect4 1 1 2 3 out /\ all4 in_unit out.
Proof.
  exact (recovery_division_safe numpy gray_1x2_rect patch_1x2_rect
           gray_1x2_fin patch_1x2_fin patch_1x2_below_one).
Defined.

(* ======================================================================== *)
(** * Errors, edge cases and composition *)

(** ** Rolling *)

(** [np.roll] read at an index: the result at [i] is the input at
    [(i - shift) mod n]. *)
Lemma roll1_nth {A : Type} (d : A) (s : Z) (l : list A) (i : nat) :
  i < length l ->
  nth i (roll1 s l) d =
  nth (Z.to_nat ((Z.of_nat i - s) mod Z.of_nat (length l))) l d.
Proof.
  intros Hi. unfold roll1.
  set (n := length l) in *.
  assert (Hn : (0 < Z.of_nat n)%Z) by lia.
  assert (Hk := Z.mod_pos_bound s (Z.of_nat n) Hn).
  set (k := Z.to_nat (s mod Z.of_nat n)).
  assert (Hkn : k < n) by (unfold k; lia).
  assert (Hmod : ((Z.of_nat i - s) mod Z.of_nat n =
                  (Z.of_nat i - Z.of_nat k) mod Z.of_nat n)%Z).
  { unfold k. rewrite Z2Nat.id by lia. now rewrite Zminus_mod_idemp_r. }
  rewrite Hmod.
  destruct (Nat.lt_ge_cases i k) as [Hlt|Hge].
  - rewrite app_nth1 by (rewrite length_skipn; fold n; lia).
    rewrite nth_skipn. f_equal.
    replace ((Z.of_nat i - Z.of_nat k) mod Z.of_nat n)%Z
      with (Z.of_nat i - Z.of_nat k + Z.of_nat n)%Z; [lia|].
    apply Z.mod_unique with (-1)%Z; lia.
  - rewrite app_nth2 by (rewrite length_skipn; fold n; lia).
    rewrite length_skipn. fold n. rewrite nth_firstn.
    destruct (Nat.ltb_spec (i - (n - (n - k))) (n - k)); [|lia].
    f_equal. rewrite Z.mod_small by lia. lia.
Qed.

Lemma roll1_compose {A : Type} (a b : Z) (l : list A) :
  roll1 a (roll1 b l) = roll1 (a + b) l.
Proof.
  destruct l as [|x0 l0] eqn:El; [reflexivity|]. rewrite <- El.
  assert (Hpos : 0 < length l) by (subst l; cbn; lia).
  apply nth_ext with x0 x0; [now rewrite !roll1_length|].
  intros i Hi. rewrite !roll1_length in Hi.
  rewrite roll1_nth by (now rewrite roll1_length).
  rewrite roll1_length.
  assert (Hn : (0 < Z.of_nat (length l))%Z) by lia.
  assert (Hb := Z.mod_pos_bound (Z.of_nat i - a) (Z.of_nat (length l)) Hn).
  rewrite roll1_nth by lia. rewrite roll1_nth by exact Hi.
  f_equal. f_equal. rewrite Z2Nat.id by lia.
  rewrite Zminus_mod_idemp_l. f_equal. lia.
Qed.

Lemma roll1_zero {A : Type} (l : list A) : roll1 0 l = l.
Proof.
  unfold roll1. rewrite Zmod_0_l. cbn [Z.to_nat]. rewrite Nat.sub_0_r.
  rewrite skipn_all, firstn_all. reflexivity.
Qed.

Lemma roll1_period {A : Type} (s m : Z) (l : list A) :
  roll1 (s + m * Z.of_nat (length l)) l = roll1 s l.
Proof.
  unfold roll1. destruct (Nat.eq_dec (length l) 0) as [H0|H0].
  - destruct l; [reflexivity|discriminate].
  - now rewrite Z_mod_plus_full.
Qed.

Lemma roll1_map {A B : Type} (f : A -> B) (s : Z) (l : list A) :
  roll1 s (map f l) = map f (roll1 s l).
Proof.
  unfold roll1. rewrite length_map, map_app, skipn_map, firstn_map. reflexivity.
Qed.

Lemma roll1_back {A : Type} (s : Z) (l : list A) : roll1 (- s) (roll1 s l) = l.
Proof.
  rewrite roll1_compose. replace (- s + s)%Z with 0%Z by lia. apply roll1_zero.
Qed.

Lemma roll01_back {A : Type} (sy sx : Z) (m : list (list A)) :
  roll01 (- sy) (- sx) (roll01 sy sx m) = m.
Proof.
  unfold roll01. rewrite roll1_map, roll1_back, map_map.
  rewrite <- (map_id m) at 2. apply map_ext. intros row. apply roll1_back.
Qed.

(** X1.  Rolling an array by [(sy, sx)] and then by [(-sy, -sx)] gives the
    array back, on either backend, for shifts that are 64-bit integers
    together with their negations: placing the template at a shift loses
    nothing. *)
Theorem roll_round_trip {A : Type} (lib : backend)
    (x : list (list A)) (sy sx : Z) :
  int64 sy -> int64 sx -> int64 (- sy) -> int64 (- sx) ->
  (rolled <- _roll (Array lib x) (sy, sx) ;; _roll rolled (- sy, - sx)%Z) =
  Ok (Array lib x).
Proof.
  intros _ _ _ _.
  destruct lib; cbn [_roll bind fst snd]; now rewrite roll01_back.
Qed.

Lemma roll01_period {A : Type} (sy sx a b : Z) (h w : nat) (m : list (list A)) :
  rect2 h w m ->
  roll01 (sy + a * Z.of_nat h) (sx + b * Z.of_nat w) m = roll01 sy sx m.
Proof.
  intros [Hl Hf]. unfold roll01. rewrite <- Hl, roll1_period.
  apply map_ext_in. intros row Hin.
  assert (Hrow : rect1 w row).
  { apply (proj1 (Forall_forall _ _) (roll1_Forall sy Hf) row Hin). }
  unfold rect1 in Hrow. rewrite <- Hrow. apply roll1_period.
Qed.

(** X2.  Rolling is periodic: on an array of [h] rows of [w] entries, shifts
    that differ by multiples of [h] and of [w] give the same array, as long
    as all four shifts are 64-bit integers.  A shift is only meaningful
    modulo the frame size. *)
Theorem roll_periodic {A : Type} (lib : backend)
    (x : list (list A)) (h w : nat) (sy sx a b : Z) :
  rect2 h w x ->
  int64 sy -> int64 sx ->
  int64 (sy + a * Z.of_nat h) -> int64 (sx + b * Z.of_nat w) ->
  _roll (Array lib x) (sy + a * Z.of_nat h, sx + b * Z.of_nat w)%Z =
  _roll (Array lib x) (sy, sx).
Proof.
  intros Hx _ _ _ _. destruct lib; cbn [_roll fst snd];
    now rewrite (roll01_period sy sx a b Hx).
Qed.

(** ** What background recovery can return *)

Lemma clip_array (lib : backend) (a : tensor4 xnum) (lo hi : xnum) :
  _clip (Array lib a) lo hi = Ok (Array lib (map4 (clip1 lo hi) a)).
Proof. now destruct lib. Qed.

Lemma clip1_nan_or_unit (x : xnum) :
  clip1 xzero xone x = NaN \/ in_unit (clip1 xzero xone x).
Proof.
  destruct (is_nan x) eqn:Hx.
  - left. now destruct x.
  - right. now apply clip1_in_unit.
Qed.

Lemma in_unit_not_nan (x : xnum) : in_unit x -> x <> NaN.
Proof. intros [H _] ->. exact H. Qed.

(** X3.  Whatever the values of the video and of the watermark (infinities
    and NaN included), background recovery on a [t]-frame RGB video and an
    RGBA watermark of the frames' size returns an array whose every entry is
    in [0, 1] or is NaN: it never returns an infinity or a number outside
    [0, 1]. *)
Theorem recover_background_range (lib : backend) (t h w : nat)
    (video : tensor4 xnum) (wm : tensor3 xnum) :
  rect4 t h w 3 video -> rect3 h w 4 wm ->
  exists out,
    recover_background (Array lib video) (Array lib wm) = Ok (Array lib out) /\
    all4 (fun v => v = NaN \/ in_unit v) out.
Proof.
  intros Hv Hw. eexists. split; [exact (recover_background_table lib Hv Hw)|].
  apply all4_table. intros i y x k _ _ _ _. apply clip1_nan_or_unit.
Qed.

Lemma qsign_sub_Eq (c r : Qc) : qsign (c + - r)%Qc = Eq <-> c = r.
Proof.
  rewrite qsign_Eq. split.
  - intros H. assert (c = (c + - r) + r)%Qc as -> by ring. rewrite H. ring.
  - intros ->. ring.
Qed.

(** The recovery of one value at an opaque pixel: the division by zero. *)
Lemma recover1_opaque (c r : Qc) :
  recover1 (Fin c) (Fin r) xone =
  match qsign (c + - r)%Qc with
  | Eq => NaN
  | Gt => xone
  | Lt => xzero
  end.
Proof.
  unfold recover1, xone, xsub, xmul. cbn [xopp xadd]. rewrite qc1.
  replace (1 * r)%Qc with r by ring.
  assert (H0 : (1 + Qcopp 1)%Qc = 0%Qc) by ring. rewrite H0.
  unfold xdiv. change (qsign 0%Qc) with Eq. cbv beta iota.
  destruct (qsign (c + - r)%Qc); reflexivity.
Qed.

Lemma recover1_nan_iff (c r a : Qc) :
  recover1 (Fin c) (Fin r) (Fin a) = NaN <-> a = 1%Qc /\ c = r.
Proof.
  split.
  - intros H. destruct (Qc_eq_dec a 1) as [Ha|Ha].
    + split; [exact Ha|]. subst a. change (Fin 1%Qc) with xone in H.
      rewrite recover1_opaque in H. apply qsign_sub_Eq.
      destruct (qsign (c + - r)%Qc); [reflexivity|discriminate H|discriminate H].
    + exfalso. apply (in_unit_not_nan (recover1_in_unit c r Ha)). exact H.
  - intros [-> ->]. change (Fin 1%Qc) with xone. rewrite recover1_opaque.
    now rewrite (proj2 (qsign_sub_Eq r r) eq_refl).
Qed.

(** X4.  With numbers as values, the recovered value at a position is NaN
    exactly when the watermark is opaque there (alpha = 1) and the composite
    value equals the watermark's colour; at an opaque pixel the result is
    otherwise saturated to 0 or 1, whatever the background was. *)
Theorem recover_background_nan_iff (lib : backend) (t h w : nat)
    (video : tensor4 xnum) (wm : tensor3 xnum) :
  rect4 t h w 3 video -> rect3 h w 4 wm ->
  all4 is_fin video -> all3 is_fin wm ->
  exists out,
    recover_background (Array lib video) (Array lib wm) = Ok (Array lib out) /\
    forall i y x k, i < t -> y < h -> x < w -> k < 3 ->
      (at4 NaN out i y x k = NaN <->
       alpha_at wm y x = xone /\ at4 NaN video i y x k = at3 NaN wm y x k) /\
      (alpha_at wm y x = xone ->
       at4 NaN out i y x k = NaN \/ at4 NaN out i y x k = xzero \/
       at4 NaN out i y x k = xone).
Proof.
  intros Hv Hw Hfv Hfw. eexists.
  split; [exact (recover_background_table lib Hv Hw)|].
  intros i y x k Hi Hy Hx Hk. rewrite table4_at by assumption.
  destruct (is_fin_inv _ (all4_at NaN Hv Hfv Hi Hy Hx Hk)) as [c ->].
  destruct (is_fin_inv _ (all3_at NaN (k:=k) Hw Hfw Hy Hx ltac:(lia))) as [r ->].
  assert (Hq : exists a, alpha_at wm y x = Fin a)
    by exact (is_fin_inv _ (all3_at NaN (k:=3) Hw Hfw Hy Hx ltac:(lia))).
  destruct Hq as [a ->]. split.
  - rewrite recover1_nan_iff. unfold xone. rewrite qc1. split.
    + intros [-> ->]. split; reflexivity.
    + intros [Ha Hc]. split; congruence.
  - intros Ha. rewrite Ha, recover1_opaque.
    destruct (qsign (c + - r)%Qc); auto.
Qed.

Lemma tabulate_app {A : Type} (a b : nat) :
  forall f : nat -> A,
    tabulate (a + b) f = tabulate a f ++ tabulate b (fun i => f (a + i)).
Proof.
  induction a as [|a IH]; intros f; [reflexivity|].
  cbn [Nat.add]. rewrite !tabulate_S, IH. reflexivity.
Qed.

(** X5.  Background recovery works frame by frame: recovering a video made
    of two runs of frames gives the recovered first run followed by the
    recovered second run. *)
Theorem recover_background_frames (lib : backend) (t1 t2 h w : nat)
    (v1 v2 : tensor4 xnum) (wm : tensor3 xnum) :
  rect4 t1 h w 3 v1 -> rect4 t2 h w 3 v2 -> rect3 h w 4 wm ->
  exists o1 o2,
    recover_background (Array lib v1) (Array lib wm) = Ok (Array lib o1) /\
    recover_background (Array lib v2) (Array lib wm) = Ok (Array lib o2) /\
    recover_background (Array lib (v1 ++ v2)) (Array lib wm) =
      Ok (Array lib (o1 ++ o2)).
Proof.
  intros H1 H2 Hw.
  assert (H12 : rect4 (t1 + t2) h w 3 (v1 ++ v2)).
  { destruct H1 as [L1 F1], H2 as [L2 F2]. split.
    - rewrite length_app. congruence.
    - apply Forall_app. now split. }
  do 2 eexists.
  split; [exact (recover_background_table lib H1 Hw)|].
  split; [exact (recover_background_table lib H2 Hw)|].
  etransitivity; [exact (recover_background_table lib H12 Hw)|]. do 2 f_equal.
  unfold table4. rewrite tabulate_app. destruct H1 as [L1 _]. f_equal.
  - apply tabulate_ext. intros i Hi. unfold at4.
    rewrite app_nth1 by lia. reflexivity.
  - apply tabulate_ext. intros i Hi. unfold at4.
    rewrite app_nth2 by lia.
    replace (t1 + i - length v1) with i by lia. reflexivity.
Qed.

Lemma bc43_left1 {A : Type} (d : A) (f : A -> A -> A) (t h w c : nat)
    (v : tensor4 A) (m : tensor3 A) :
  rect4 t h w 1 v -> rect3 h w c m ->
  bc43 f v m =
  Ok (table4 t h w c (fun i y x k => f (at4 d v i y x 0) (at3 d m y x k))).
Proof.
  intros Hv Hm. apply broadcast_right1 with []; [apply Hv|].
  intros i Hi. apply bc3_left1; [now apply rect4_row with t|exact Hm].
Qed.

(** X6.  A single-channel video is not rejected by background recovery:
    numpy stretches its channel axis against the three colour channels, and
    the result has three channels, each recovered from the one input value
    with that channel's watermark colour.  The output shape [(T, H, W, 3)]
    then differs from the input shape [(T, H, W, 1)]. *)
Theorem recover_background_single_channel (lib : backend) (t h w : nat)
    (video : tensor4 xnum) (wm : tensor3 xnum) :
  rect4 t h w 1 video -> rect3 h w 4 wm ->
  exists out,
    recover_background (Array lib video) (Array lib wm) = Ok (Array lib out) /\
    rect4 t h w 3 out /\
    forall i y x k, i < t -> y < h -> x < w -> k < 3 ->
      at4 NaN out i y x k =
      recover1 (at4 NaN video i y x 0) (at3 NaN wm y x k) (alpha_at wm y x).
Proof.
  intros Hv Hw. unfold recover_background. cbn [py_apply bind].
  assert (Hrgb : rect3 h w 3 (slice_channels_to 3 wm))
    by exact (slice_channels_to_rect 3 Hw).
  assert (Hal : rect3 h w 1 (slice_channels_from 3 wm))
    by exact (slice_channels_from_rect 3 Hw).
  rewrite (py_binop_same _ lib _ _ (bc3_left1 NaN xmul Hal Hrgb)). cbn [bind].
  rewrite (py_binop_same _ lib _ _
             (bc43_left1 NaN xsub Hv (table3_rect h w 3 _))). cbn [bind].
  assert (Hden : rect3 h w 1 (map3 (xsub xone) (slice_channels_from 3 wm))).
  { rewrite (rect3_table NaN Hal), map3_table. apply table3_rect. }
  rewrite (py_binop_same _ lib _ _
             (bc43_right1 NaN xdiv (table4_rect t h w 3 _) Hden)). cbn [bind].
  rewrite clip_array. eexists. split; [reflexivity|].
  rewrite map4_table. split; [apply table4_rect|].
  intros i y x k Hi Hy Hx Hk. unfold recover1, alpha_at.
  rewrite !table4_at by assumption. rewrite table3_at by assumption.
  rewrite slice_channels_to_at by exact Hk.
  rewrite slice_channels_from_at. cbn [Nat.add].
  rewrite (map3_at NaN NaN (xsub xone) Hal) by lia.
  rewrite slice_channels_from_at. reflexivity.
Qed.

(** ** The detected shift *)

Section Detection.
Context {E : Externals} {OK : ExternalsOK E}.

(** Shift detection comes down to [best_shift] on two gray images of the
    frame's size, whatever the number of channels of the mean frame. *)
Lemma get_shifts_surface (l1 l2 : backend) (avg wm : tensor3 xnum)
    (h w c1 c2 : nat) :
  rect3 h w c1 avg -> rect3 h w c2 wm ->
  exists f g corr,
    get_shifts (Array l1 avg) (Array l2 wm) = best_shift f g /\
    cross_corr f g = Ok corr /\ rect2 h w corr /\ rect2 h w g.
Proof.
  intros Ha Hw. unfold get_shifts. cbn [as_numpy_array bind].
  rewrite (bc3_same NaN xsub Ha (blur_shape 20 Ha)). cbn [bind].
  destruct (blend_shape xhalf Hw) as [C' Hb].
  assert (Hzw : rect2 h w (as_grayscale_image
            (map3 (fun v => xsub v xhalf) (blend_images xhalf wm))))
    by (eapply gray_shape, map3_rect3, Hb).
  assert (Hza : rect2 h w (as_grayscale_image
            (table3 h w c1 (fun y x k => xsub (at3 NaN avg y x k)
               (at3 NaN (cv_gauss_blur avg 20) y x k)))))
    by (eapply gray_shape, table3_rect).
  destruct (cross_corr_ok Hza Hzw) as [corr [Hcc Hc]].
  do 3 eexists. split; [reflexivity|]. split; [exact Hcc|]. split; assumption.
Qed.

Lemma get_shifts_returns (l1 l2 : backend) (avg wm : tensor3 xnum)
    (h w c1 c2 : nat) :
  rect3 h w c1 avg -> rect3 h w c2 wm -> 0 < h -> 0 < w ->
  exists dx dy, get_shifts (Array l1 avg) (Array l2 wm) = Ok (dx, dy).
Proof.
  intros Ha Hw Hh Hww.
  destruct (get_shifts_surface l1 l2 Ha Hw) as [f [g [corr [-> [Hcc [Hc _]]]]]].
  exact (best_shift_returns _ _ Hcc Hc Hh Hww).
Qed.

(** X7.  On a mean frame and a watermark of [h] by [w] pixels, shift
    detection returns a shift in the balanced range of each axis:
    [-(w // 2) <= dx < w - w // 2] and [-(h // 2) <= dy < h - h // 2].  A
    watermark displaced further is reported modulo the frame size. *)
Theorem detected_shift_centred (l1 l2 : backend) (avg wm : tensor3 xnum)
    (h w c1 c2 : nat) :
  rect3 h w c1 avg -> rect3 h w c2 wm -> 0 < h -> 0 < w ->
  exists dx dy,
    get_shifts (Array l1 avg) (Array l2 wm) = Ok (dx, dy) /\
    centred w dx /\ centred h dy.
Proof.
  intros Ha Hw Hh Hww.
  destruct (get_shifts_surface l1 l2 Ha Hw) as [f [g [corr [-> [Hcc [Hc Hg]]]]]].
  assert (Hlen := concat_rect_length Hc).
  assert (Hne : concat corr <> []).
  { intros H0. rewrite H0 in Hlen. cbn in Hlen. nia. }
  destruct (np_argmax_spec NaN corr Hne) as [r [Har [Hr _]]].
  rewrite Hlen in Hr.
  assert (Hy : r / w < h) by (apply Nat.Div0.div_lt_upper_bound; lia).
  assert (Hx : r mod w < w) by (apply Nat.mod_upper_bound; lia).
  unfold best_shift. rewrite Hcc. cbn [bind]. rewrite Har. cbn [bind].
  rewrite (rect2_shape2 Hc Hh), (rect2_shape2 Hg Hh).
  cbn [np_unravel_index fst snd]. do 2 eexists. split; [reflexivity|].
  unfold centred. split; lia.
Qed.

End Detection.

(** ** Arguments and asset are checked before any frame is touched *)

Section Validation.
Context {E : Externals}.

(** X8.  A [form] other than ['TCHW'] and ['THWC'] fails the assertion of
    line 103, whatever the video is: even a value of no supported backend is
    not looked at before the layout name is checked. *)
Theorem invalid_form_asserts (video : pyobj (ndarray tensor4)) (f : string) :
  f <> "TCHW"%string -> f <> "THWC"%string ->
  exists msg, remove_watermark video (Some f) = Raise (AssertionError msg).
Proof.
  intros H1 H2. unfold remove_watermark, form_ok. cbn [bind].
  rewrite (proj2 (String.eqb_neq _ _) H1), (proj2 (String.eqb_neq _ _) H2).
  cbn. eauto.
Qed.

(** X9.  On a value that is neither a numpy array nor a torch tensor,
    [remove_watermark] called without a [form] (stopped by [_default_form])
    or with ['THWC'] (stopped by [_is_uint8]) raises the TypeError of the
    format adapter. *)
Theorem unsupported_video_raises (form : option string) :
  form = None \/ form = Some "THWC"%string ->
  remove_watermark OtherObject form = Raise unsupported.
Proof. intros [->| ->]; reflexivity. Qed.

Lemma recover_background_returns (lib : backend) (v : tensor4 xnum)
    (wm : tensor3 xnum) (r : pyobj (tensor4 xnum)) :
  recover_background (Array lib v) (Array lib wm) = Ok r ->
  exists out, r = Array lib out.
Proof.
  unfold recover_background, py_binop. cbn [py_apply bind].
  rewrite backend_eqb_refl.
  destruct (bc3 xmul _ _) as [weighted|]; cbn [bind]; [|discriminate].
  rewrite backend_eqb_refl.
  destruct (bc43 xsub _ _) as [numerator|]; cbn [bind]; [|discriminate].
  rewrite backend_eqb_refl.
  destruct (bc43 xdiv _ _) as [background|]; cbn [bind]; [|discriminate].
  rewrite clip_array. intros H. injection H as <-. eauto.
Qed.

Lemma process_frames_returns (lib : backend) (v : tensor4 xnum)
    (r : pyobj (ndarray tensor4)) :
  process_frames (Array lib v) = Ok r -> exists out, r = Array lib (Float out).
Proof.
  unfold process_frames. cbn [py_apply bind py_shape3].
  destruct _get_watermark_image as [tpl|]; cbn [bind]; [|discriminate].
  destruct (shape3 (mean0 v)) as [[h w] c]. cbv beta iota.
  destruct (crop_image tpl h w) as [wm|]; cbn [bind]; [|discriminate].
  rewrite like_array. cbn [bind].
  destruct (get_shifts _ _) as [[dx dy]|]; cbn [bind]; [|discriminate].
  cbv beta iota. rewrite roll_array. cbn [bind fst snd].
  destruct (recover_background _ _) as [rec|] eqn:Hrec; cbn [bind]; [|discriminate].
  destruct (recover_background_returns _ _ _ Hrec) as [out ->].
  cbn [py_apply]. intros H. injection H as <-. eauto.
Qed.

Lemma remove_watermark_thwc_returns (lib : backend) (a : ndarray tensor4)
    (r : pyobj (ndarray tensor4)) :
  remove_watermark_thwc (Array lib a) = Ok r ->
  exists out, r = Array lib (Float out).
Proof.
  destruct a as [d|d].
  - rewrite remove_watermark_thwc_uint8. apply process_frames_returns.
  - rewrite remove_watermark_thwc_float. apply process_frames_returns.
Qed.

Lemma remove_watermark_array_returns (lib : backend) (a : ndarray tensor4)
    (form : option string) (r : pyobj (ndarray tensor4)) :
  remove_watermark (Array lib a) form = Ok r ->
  form_ok (layout_of lib form) = true /\ exists out, r = Array lib (Float out).
Proof.
  intros H. unfold remove_watermark in H. rewrite resolve_form in H.
  cbn [bind] in H.
  destruct (form_ok (layout_of lib form)); cbn [py_assert bind] in H;
    [|discriminate].
  split; [reflexivity|].
  destruct (String.eqb (layout_of lib form) "TCHW").
  - cbn [py_apply bind] in H.
    destruct (remove_watermark_thwc _) as [rec|] eqn:Hrec; cbn [bind] in H;
      [|discriminate].
    destruct (remove_watermark_thwc_returns _ _ Hrec) as [out ->].
    cbn in H. injection H as <-. eauto.
  - exact (remove_watermark_thwc_returns _ _ H).
Qed.

(** X10.  Whenever [remove_watermark] returns on a numpy array or a torch
    tensor, or on any value with a [form] other than ['TCHW'], its argument
    was an array of a supported backend, the layout in force was one of the
    two layouts, and the result is a floating-point array of the same
    backend: a [uint8] input never comes back as [uint8].  (With ['TCHW']
    the first thing done to the video is [einops.rearrange], which also
    takes a list of arrays; the statement leaves that case out.) *)
Theorem remove_watermark_returns_float (video : pyobj (ndarray tensor4))
    (form : option string) (r : pyobj (ndarray tensor4)) :
  remove_watermark video form = Ok r ->
  form <> Some "TCHW"%string \/ (exists lib a, video = Array lib a) ->
  exists lib a out,
    video = Array lib a /\ r = Array lib (Float out) /\
    form_ok (layout_of lib form) = true.
Proof.
  intros H Hcase. destruct video as [lib a|].
  - destruct (remove_watermark_array_returns _ _ _ H) as [Hform [out ->]].
    exists lib, a, out. auto.
  - exfalso. destruct Hcase as [Hne|[lib [a Ha]]]; [|discriminate Ha].
    destruct form as [f|]; [|discriminate H].
    unfold remove_watermark in H. cbn [bind] in H.
    destruct (form_ok f) eqn:Hf; cbn [py_assert bind] in H; [|discriminate].
    destruct (String.eqb_spec f "TCHW") as [->|_]; [now apply Hne|].
    discriminate H.
Qed.

Lemma get_watermark_image_rejects :
  is_rgba_image (load_image "watermark.exr") &&
    is_float_image (load_image "watermark.exr") = false ->
  _get_watermark_image =
  Raise (AssertionError (asset_error (load_image "watermark.exr"))).
Proof.
  unfold _get_watermark_image, asset_error.
  destruct (is_rgba_image _); cbn [andb py_assert bind]; [|reflexivity].
  now intros ->.
Qed.

(** X11.  When the asset is not an RGBA image, or is RGBA but not of
    floating type, [remove_watermark] raises the AssertionError of
    [_get_watermark_image] on every array and every valid layout, whatever
    the frames hold: the channel test comes first, and no frame is
    recovered. *)
Theorem asset_check_aborts (lib : backend) (a : ndarray tensor4)
    (form : option string) :
  form_ok (layout_of lib form) = true ->
  is_rgba_image (load_image "watermark.exr") &&
    is_float_image (load_image "watermark.exr") = false ->
  remove_watermark (Array lib a) form =
  Raise (AssertionError (asset_error (load_image "watermark.exr"))).
Proof.
  intros Hform Hbad.
  assert (Hp : forall v, process_frames (Array lib v) =
                 Raise (AssertionError (asset_error (load_image "watermark.exr")))).
  { intros v. unfold process_frames. cbn [py_apply bind].
    now rewrite (get_watermark_image_rejects Hbad). }
  assert (Ht : forall b, remove_watermark_thwc (Array lib b) =
                 Raise (AssertionError (asset_error (load_image "watermark.exr")))).
  { intros [d|d].
    - rewrite remove_watermark_thwc_uint8. apply Hp.
    - rewrite remove_watermark_thwc_float. apply Hp. }
  unfold remove_watermark. rewrite resolve_form. cbn [bind].
  rewrite Hform. cbn [py_assert bind].
  destruct (String.eqb (layout_of lib form) "TCHW").
  - cbn [py_apply bind]. now rewrite Ht.
  - apply Ht.
Qed.

End Validation.

(** ** The channel axis *)

Lemma broadcast_mismatch {A B C : Type} (f : A -> B -> result C)
    (xs : list A) (ys : list B) :
  length xs <> length ys -> length xs <> 1 -> length ys <> 1 ->
  broadcast f xs ys = Raise broadcast_error.
Proof.
  intros Hne Hx Hy. unfold broadcast.
  destruct (Nat.eqb_spec (length xs) (length ys)) as [Heq|_]; [contradiction|].
  destruct xs as [|x [|x' xs]], ys as [|y [|y' ys]]; cbn in *;
    try reflexivity; congruence.
Qed.

(** An axis whose first pair of entries cannot be combined cannot be
    combined. *)
Lemma broadcast_head_fails {A B C : Type} (f : A -> B -> result C)
    (x : A) (xs : list A) (y : B) (ys : list B) (e : exn) :
  f x y = Raise e -> exists e', broadcast f (x :: xs) (y :: ys) = Raise e'.
Proof.
  intros H. unfold broadcast.
  destruct (Nat.eqb (length (x :: xs)) (length (y :: ys))).
  - cbn [zip_with_r]. rewrite H. cbn [bind]. eauto.
  - destruct xs as [|x' xs].
    + cbn [map_r]. rewrite H. cbn [bind]. eauto.
    + destruct ys as [|y' ys]; [|eauto].
      cbn [map_r]. rewrite H. cbn [bind]. eauto.
Qed.

Lemma rect_head {A : Type} (P : A -> Prop) (n : nat) (l : list A) :
  length l = n -> 0 < n -> Forall P l -> exists x l', l = x :: l' /\ P x.
Proof.
  intros Hl Hn Hf. destruct l as [|x l']; [cbn in Hl; lia|].
  exists x, l'. split; [reflexivity|]. now apply Forall_cons_iff in Hf.
Qed.

Section ChannelMismatch.
Context {A : Type} (f : A -> A -> A) (c : nat).
Hypothesis (Hc1 : c <> 1) (Hc3 : c <> 3).

Lemma bc2_channels_fail (w : nat) (r1 r2 : matrix A) :
  rect2 w c r1 -> rect2 w 3 r2 -> 0 < w -> exists e, bc2 f r1 r2 = Raise e.
Proof.
  intros [L1 F1] [L2 F2] Hw.
  destruct (rect_head L1 Hw F1) as [p [r1' [-> Hp]]].
  destruct (rect_head L2 Hw F2) as [q [r2' [-> Hq]]].
  apply broadcast_head_fails with broadcast_error.
  apply broadcast_mismatch; unfold rect1 in *; lia.
Qed.

Lemma bc3_channels_fail (h w : nat) (m1 m2 : tensor3 A) :
  rect3 h w c m1 -> rect3 h w 3 m2 -> 0 < h -> 0 < w ->
  exists e, bc3 f m1 m2 = Raise e.
Proof.
  intros [L1 F1] [L2 F2] Hh Hw.
  destruct (rect_head L1 Hh F1) as [p [r1' [-> Hp]]].
  destruct (rect_head L2 Hh F2) as [q [r2' [-> Hq]]].
  destruct (bc2_channels_fail Hp Hq Hw) as [e He].
  now apply broadcast_head_fails with e.
Qed.

Lemma bc43_channels_fail (t h w : nat) (v : tensor4 A) (m : tensor3 A) :
  rect4 t h w c v -> rect3 h w 3 m -> 0 < t -> 0 < h -> 0 < w ->
  exists e, bc43 f v m = Raise e.
Proof.
  intros [L1 F1] Hm Ht Hh Hw.
  destruct (rect_head L1 Ht F1) as [p [v' [-> Hp]]].
  destruct (bc3_channels_fail Hp Hm Hh Hw) as [e He].
  now apply broadcast_head_fails with e.
Qed.

End ChannelMismatch.

Section Channels.
Context {E : Externals} {OK : ExternalsOK E}.

Lemma recover_background_channels (lib : backend) (t h w c : nat)
    (v : tensor4 xnum) (wm : tensor3 xnum) :
  rect4 t h w c v -> rect3 h w 4 wm -> 0 < t -> 0 < h -> 0 < w ->
  c <> 1 -> c <> 3 ->
  exists e, recover_background (Array lib v) (Array lib wm) = Raise e.
Proof.
  intros Hv Hw Ht Hh Hww Hc1 Hc3. unfold recover_background. cbn [py_apply bind].
  assert (Hrgb : rect3 h w 3 (slice_channels_to 3 wm))
    by exact (slice_channels_to_rect 3 Hw).
  assert (Hal : rect3 h w 1 (slice_channels_from 3 wm))
    by exact (slice_channels_from_rect 3 Hw).
  rewrite (py_binop_same _ lib _ _ (bc3_left1 NaN xmul Hal Hrgb)). cbn [bind].
  assert (Hfail := fun g =>
    bc43_channels_fail xsub Hc1 Hc3 Hv (table3_rect h w 3 g) Ht Hh Hww).
  match goal with
  | |- context [table3 h w 3 ?g] => destruct (Hfail g) as [e He]
  end.
  unfold py_binop at 1. rewrite backend_eqb_refl, He. cbn [bind]. eauto.
Qed.

Lemma process_frames_channels (lib : backend) (t h w c Ht Wt : nat)
    (v : tensor4 xnum) :
  0 < t -> 0 < h -> 0 < w -> c <> 1 -> c <> 3 -> h <= Ht -> w <= Wt ->
  rect4 t h w c v -> valid_template E Ht Wt ->
  exists e, process_frames (Array lib v) = Raise e.
Proof.
  intros Ht0 Hh0 Hw0 Hc1 Hc3 Hh Hw Hv [tpl [Hload [Ht3 _]]].
  unfold process_frames. cbn [py_apply bind].
  rewrite (get_watermark_image_ok Hload Ht3). cbn [bind py_shape3].
  assert (Havg : rect3 h w c (mean0 v)) by (now apply mean0_rect3 with t).
  rewrite (rect3_shape3 Havg Hh0 Hw0). cbv beta iota.
  rewrite (crop_fits (h:=h) (w:=w) Ht3) by lia. cbn [bind].
  rewrite like_array. cbn [bind].
  set (wm0 := map (firstn w) (firstn h tpl)).
  assert (Hwm : rect3 h w 4 wm0) by (now apply firstn_rows_rect3 with Ht Wt).
  destruct (get_shifts_returns lib lib Havg Hwm Hh0 Hw0) as [dx [dy Hgs]].
  rewrite Hgs. cbn [bind]. cbv beta iota. rewrite roll_array. cbn [bind fst snd].
  destruct (recover_background_channels lib Hv (roll01_rect3 dy dx Hwm)
              Ht0 Hh0 Hw0 Hc1 Hc3) as [e He].
  rewrite He. cbn [bind]. eauto.
Qed.

Lemma remove_watermark_thwc_channels (lib : backend) (a : ndarray tensor4)
    (t h w c Ht Wt : nat) :
  0 < t -> 0 < h -> 0 < w -> c <> 1 -> c <> 3 -> h <= Ht -> w <= Wt ->
  valid_template E Ht Wt -> has_shape a (t, h, w, c) ->
  exists e, remove_watermark_thwc (Array lib a) = Raise e.
Proof.
  intros Ht0 Hh0 Hw0 Hc1 Hc3 Hh Hw Htpl Hd. destruct a as [d|d]; cbn in Hd.
  - rewrite remove_watermark_thwc_uint8.
    apply process_frames_channels with t h w c Ht Wt; try assumption.
    now apply map4_rect4.
  - rewrite remove_watermark_thwc_float.
    now apply process_frames_channels with t h w c Ht Wt.
Qed.

Lemma rearrange_tchw_thwc_shape (a : ndarray tensor4) (t c h w : nat) :
  has_shape a (t, c, h, w) -> 0 < c -> 0 < h ->
  has_shape (rearrange_tchw_thwc a) (t, h, w, c).
Proof.
  intros Hs Hc Hh. destruct a as [d|d]; cbn in *; now apply tchw_to_thwc_rect.
Qed.

(** X12.  A video whose channel axis (the last one in THWC, the second one
    in TCHW) is neither 3 nor 1 long is rejected: with a valid template that
    covers the frame, [remove_watermark] raises and returns nothing.  This
    is what happens to data passed in the layout the call does not assume,
    such as a [(T, H, W, 3)] torch tensor without [form]. *)
Theorem channel_axis_must_be_rgb (lib : backend) (a : ndarray tensor4)
    (form : option string) (t h w c Ht Wt : nat) :
  0 < t -> 0 < h -> 0 < w -> 0 < c -> c <> 1 -> c <> 3 ->
  h <= Ht -> w <= Wt -> valid_template E Ht Wt ->
  form_ok (layout_of lib form) = true ->
  has_shape a (layout_dims (layout_of lib form) t h w c) ->
  exists e, remove_watermark (Array lib a) form = Raise e.
Proof.
  intros Ht0 Hh0 Hw0 Hc0 Hc1 Hc3 Hh Hw Htpl Hform Hs.
  unfold remove_watermark. rewrite resolve_form. cbn [bind].
  rewrite Hform. cbn [py_assert bind]. unfold layout_dims in Hs.
  destruct (String.eqb (layout_of lib form) "TCHW").
  - cbn [py_apply bind].
    destruct (remove_watermark_thwc_channels lib (rearrange_tchw_thwc a)
                Ht0 Hh0 Hw0 Hc1 Hc3 Hh Hw Htpl) as [e He].
    + now apply rearrange_tchw_thwc_shape.
    + rewrite He. cbn [bind]. eauto.
  - now apply remove_watermark_thwc_channels with t h w c Ht Wt.
Qed.

End Channels.

(** ** The demo *)

Section DemoFacts.
Context {E : Externals} {D : DemoExternals}.

Lemma demo_step_saves (device : option string) (p : string)
    (saved : list saved_video) (r : pyobj (ndarray tensor4)) :
  remove_watermark (demo_input device p) None = Ok r ->
  exists entry, demo_step device p saved = Ok (saved ++ [entry]) /\
                demo_output device p entry.
Proof.
  intros Hr. unfold demo_step. rewrite Hr. cbn [bind].
  assert (Harr : exists lib out, r = Array lib (Float out)).
  { unfold demo_input in Hr.
    destruct device; destruct (remove_watermark_array_returns _ _ _ Hr)
      as [_ [out ->]]; eauto. }
  destruct Harr as [lib [out ->]].
  cbn [as_numpy_array bind]. eexists. split; [reflexivity|].
  exists lib. exact Hr.
Qed.

Lemma demo_step_raises (device : option string) (p : string)
    (saved : list saved_video) (e : exn) :
  remove_watermark (demo_input device p) None = Raise e ->
  demo_step device p saved = Raise e.
Proof. intros Hr. unfold demo_step. now rewrite Hr. Qed.

(** The loop over a run of videos that all succeed. *)
Lemma demo_loop_prefix (device : option string) (rest : list string) :
  forall (done : list string) (saved : list saved_video),
    (forall p, In p done ->
       exists r, remove_watermark (demo_input device p) None = Ok r) ->
    exists written,
      demo_loop device (done ++ rest) saved =
        demo_loop device rest (saved ++ written) /\
      Forall2 (demo_output device) done written.
Proof.
  induction done as [|p done IH]; intros saved Hok.
  - exists []. rewrite app_nil_r. split; [reflexivity|constructor].
  - destruct (Hok p (or_introl eq_refl)) as [r Hr].
    destruct (demo_step_saves device p saved Hr) as [entry [Hstep Hout]].
    destruct (IH (saved ++ [entry])) as [written [Hloop Hall]].
    { intros q Hq. apply Hok. now right. }
    exists (entry :: written). cbn [app demo_loop]. rewrite Hstep, Hloop.
    rewrite <- app_assoc. split; [reflexivity|now constructor].
Qed.

(** X14.  When [remove_watermark] returns on every video the glob finds,
    the demo ends normally having written exactly one file per video, in the
    order [pop] takes the shuffled list (from its end), each holding what
    [remove_watermark] returned on that video with the default layout. *)
Theorem demo_saves_every_video (glob : string) (device : option string) :
  (forall p, In p (shuffled (rp_glob glob)) ->
     exists r, remove_watermark (demo_input device p) None = Ok r) ->
  exists saved,
    demo_remove_watermark glob device = (saved, Ok tt) /\
    Forall2 (demo_output device) (rev (shuffled (rp_glob glob))) saved.
Proof.
  intros Hok. unfold demo_remove_watermark.
  destruct (demo_loop_prefix device [] (rev (shuffled (rp_glob glob))) [])
    as [written [Hloop Hall]].
  { intros p Hp. apply Hok. now apply in_rev. }
  rewrite app_nil_r in Hloop. exists written. now rewrite Hloop.
Qed.

(** X15.  The demo stops at the first video on which [remove_watermark]
    raises: the exception leaves the call, the files of the videos taken
    before it stay written, and no later video is loaded or written. *)
Theorem demo_stops_at_first_failure (glob : string) (device : option string)
    (done rest : list string) (p : string) (e : exn) :
  rev (shuffled (rp_glob glob)) = done ++ p :: rest ->
  (forall q, In q done ->
     exists r, remove_watermark (demo_input device q) None = Ok r) ->
  remove_watermark (demo_input device p) None = Raise e ->
  exists saved,
    demo_remove_watermark glob device = (saved, Raise e) /\
    Forall2 (demo_output device) done saved.
Proof.
  intros Hpaths Hok Hfail. unfold demo_remove_watermark. rewrite Hpaths.
  destruct (demo_loop_prefix device (p :: rest) done [] Hok)
    as [written [Hloop Hall]].
  exists written. rewrite Hloop. cbn [app demo_loop].
  now rewrite (demo_step_raises device p written Hfail).
Qed.

(** X16.  With a device given, the demo hands [remove_watermark] a torch
    tensor holding the loaded [(T, H, W, 3)] data and no [form], so the data
    is read as TCHW: unless the frame height is 1 or 3 the first video
    raises, and the demo writes nothing. *)
Theorem demo_torch_device_fails {OK : ExternalsOK E} (glob d : string)
    (p : string) (rest : list string) (t h w Ht Wt : nat) :
  rev (shuffled (rp_glob glob)) = p :: rest ->
  has_shape (load_video p) (t, h, w, 3) ->
  0 < t -> 0 < h -> 0 < w -> h <> 1 -> h <> 3 ->
  w <= Ht -> 3 <= Wt -> valid_template E Ht Wt ->
  exists e, demo_remove_watermark glob (Some d) = ([], Raise e).
Proof.
  intros Hpaths Hs Ht0 Hh0 Hw0 Hh1 Hh3 Hw Hc Htpl.
  assert (Hfail : exists e,
            remove_watermark (demo_input (Some d) p) None = Raise e).
  { unfold remove_watermark, demo_input.
    cbn [_default_form is_numpy_array is_torch_tensor bind form_ok
         String.eqb Ascii.eqb Bool.eqb orb py_assert py_apply].
    destruct (remove_watermark_thwc_channels torch
                (rearrange_tchw_thwc (load_video p))
                (t:=t) (h:=w) (w:=3) (c:=h) (Ht:=Ht) (Wt:=Wt)) as [e He];
      try assumption; try lia.
    - now apply rearrange_tchw_thwc_shape.
    - rewrite He. cbn [bind]. eauto. }
  destruct Hfail as [e He]. exists e.
  unfold demo_remove_watermark. rewrite Hpaths. cbn [demo_loop].
  now rewrite (demo_step_raises (Some d) p [] He).
Qed.

End DemoFacts.

(** ** The further theorems at concrete inputs *)

Lemma externals_with_asset_ok (asset : ndarray tensor3) :
  ExternalsOK (externals_with_asset asset).
Proof.
  constructor; cbn.
  - intros img H W C h w. apply crop_to_fits.
  - intros g img H W C Hm. exists C. now apply map3_rect3.
  - intros img _ H W C. apply mean_blur_rect3.
  - intros img H W C. apply pixel_map_rect2.
  - intros m H W. apply small_dft2_rect.
  - intros m H W. apply small_idft2_rect.
Qed.

Lemma opaque_1x2_rect : rect3 1 2 4 opaque_1x2.
Proof. repeat constructor. Qed.

Lemma opaque_1x2_fin : all3 is_fin opaque_1x2.
Proof. repeat constructor. Qed.

Lemma patch_1x2_rows : rect2 1 2 patch_1x2.
Proof. repeat constructor. Qed.

Lemma two_channel_1x2_rect : rect4 1 1 2 2 two_channel_1x2.
Proof. repeat constructor. Qed.

Lemma one_channel_1x2_rect : rect4 1 1 2 1 one_channel_1x2.
Proof. repeat constructor. Qed.

Lemma gray_2x1_rect : rect4 1 2 1 3 gray_2x1.
Proof. repeat constructor. Qed.

Lemma transparent_1x3_valid :
  valid_template (externals_with_asset (Float transparent_1x3)) 1 3.
Proof.
  exists transparent_1x3. split; [reflexivity|].
  split; [repeat constructor|]. split; [repeat constructor|].
  repeat (apply Forall_cons || apply Forall_nil); xnum_neq.
Qed.

Lemma roll_round_trip_witness :
  (rolled <- _roll (Array torch patch_1x2) (0, -1)%Z ;;
   _roll rolled (- 0, - (-1))%Z) = Ok (Array torch patch_1x2).
Proof.
  apply (@roll_round_trip _ torch patch_1x2 0%Z (-1)%Z); unfold int64; lia.
Defined.

Lemma roll_periodic_witness :
  _roll (Array numpy patch_1x2) (0 + 1 * Z.of_nat 1, -1 + 1 * Z.of_nat 2)%Z =
  _roll (Array numpy patch_1x2) (0, -1)%Z.
Proof.
  apply (@roll_periodic _ numpy patch_1x2 1 2 0%Z (-1)%Z 1%Z 1%Z patch_1x2_rows);
    unfold int64; lia.
Defined.

Lemma recover_background_range_witness :
  exists out,
    recover_background (Array numpy gray_1x2) (Array numpy opaque_1x2) =
      Ok (Array numpy out) /\
    all4 (fun v => v = NaN \/ in_unit v) out.
Proof.
  exact (recover_background_range numpy gray_1x2_rect opaque_1x2_rect).
Defined.

Lemma recover_background_nan_iff_witness :
  exists out,
    recover_background (Array numpy gray_1x2) (Array numpy opaque_1x2) =
      Ok (Array numpy out) /\
    forall i y x k, i < 1 -> y < 1 -> x < 2 -> k < 3 ->
      (at4 NaN out i y x k = NaN <->
       alpha_at opaque_1x2 y x = xone /\
       at4 NaN gray_1x2 i y x k = at3 NaN opaque_1x2 y x k) /\
      (alpha_at opaque_1x2 y x = xone ->
       at4 NaN out i y x k = NaN \/ at4 NaN out i y x k = xzero \/
       at4 NaN out i y x k = xone).
Proof.
  exact (recover_background_nan_iff numpy gray_1x2_rect opaque_1x2_rect
           gray_1x2_fin opaque_1x2_fin).
Defined.

Lemma recover_background_frames_witness :
  exists o1 o2,
    recover_background (Array numpy gray_1x2) (Array numpy patch_1x2) =
      Ok (Array numpy o1) /\
    recover_background (Array numpy gray_1x2) (Array numpy patch_1x2) =
      Ok (Array numpy o2) /\
    recover_background (Array numpy (gray_1x2 ++ gray_1x2)) (Array numpy patch_1x2) =
      Ok (Array numpy (o1 ++ o2)).
Proof.
  exact (recover_background_frames numpy gray_1x2_rect gray_1x2_rect patch_1x2_rect).
Defined.

Lemma detected_shift_centred_witness :
  exists dx dy,
    get_shifts (E:=small_externals) (Array numpy patch_1x2) (Array numpy patch_1x2) =
      Ok (dx, dy) /\
    centred 2 dx /\ centred 1 dy.
Proof.
  exact (detected_shift_centred (E:=small_externals) (OK:=small_externals_ok)
           numpy numpy patch_1x2_rect patch_1x2_rect
           (Nat.lt_0_succ 0) (Nat.lt_0_succ 1)).
Defined.

Lemma invalid_form_asserts_witness :
  exists msg,
    remove_watermark (E:=small_externals) (Array numpy (Float gray_2x2))
      (Some "HWC"%string) = Raise (AssertionError msg).
Proof.
  apply (invalid_form_asserts (E:=small_externals)); discriminate.
Defined.

Lemma unsupported_video_raises_witness :
  remove_watermark (E:=small_externals) OtherObject None = Raise unsupported.
Proof.
  exact (unsupported_video_raises (E:=small_externals) (form:=None)
           (or_introl eq_refl)).
Defined.

Lemma remove_watermark_returns_float_witness :
  exists lib a out,
    Array numpy (Float (synthesize gray_2x2 (roll01 (-1) 0 small_template))) =
      Array lib a /\
    Array numpy (Float gray_2x2) = Array lib (Float out) /\
    form_ok (layout_of lib None) = true.
Proof.
  apply (remove_watermark_returns_float (E:=small_externals) small_recovers_gray).
  left. discriminate.
Defined.

Lemma asset_check_aborts_witness :
  remove_watermark (E:=externals_with_asset (Float rgb_2x2))
    (Array numpy (Float gray_2x2)) None =
  Raise (AssertionError "Without alpha, the watermark is useless").
Proof.
  exact (asset_check_aborts (E:=externals_with_asset (Float rgb_2x2))
           numpy (Float gray_2x2) None eq_refl eq_refl).
Defined.

Lemma channel_axis_must_be_rgb_witness :
  exists e,
    remove_watermark (E:=small_externals) (Array numpy (Float two_channel_1x2))
      None = Raise e.
Proof.
  apply (channel_axis_must_be_rgb (E:=small_externals) (OK:=small_externals_ok)
           numpy (Float two_channel_1x2) None
           (t:=1) (h:=1) (w:=2) (c:=2) (Ht:=2) (Wt:=2));
    try lia; [exact small_template_valid|reflexivity|exact two_channel_1x2_rect].
Defined.

Lemma small_thwc_returns :
  exists r,
    remove_watermark (E:=small_externals) (Array numpy (Float gray_2x2)) None = Ok r.
Proof.
  destruct (remove_watermark_thwc_ok (E:=small_externals) (OK:=small_externals_ok)
              numpy (Float gray_2x2) (t:=1) (h:=2) (w:=2) (Ht:=2) (Wt:=2))
    as [out [Hout _]]; try lia;
    [exact small_template_valid|exact gray_2x2_fin|exact gray_2x2_rect|].
  eexists. exact Hout.
Qed.

Lemma demo_saves_every_video_witness :
  exists saved,
    demo_remove_watermark (E:=small_externals)
      (D:=small_demo [("webvid/a.mp4", Float gray_2x2);
                      ("webvid/b.mp4", Float gray_2x2)]%string)
      "webvid/*.mp4" None = (saved, Ok tt) /\
    Forall2
      (demo_output (E:=small_externals)
         (D:=small_demo [("webvid/a.mp4", Float gray_2x2);
                         ("webvid/b.mp4", Float gray_2x2)]%string) None)
      ["webvid/b.mp4"; "webvid/a.mp4"]%string saved.
Proof.
  apply (demo_saves_every_video (E:=small_externals)
           (D:=small_demo [("webvid/a.mp4", Float gray_2x2);
                           ("webvid/b.mp4", Float gray_2x2)]%string)
           "webvid/*.mp4" None).
  intros p [<-|[<-|[]]]; exact small_thwc_returns.
Defined.

Lemma demo_stops_at_first_failure_witness :
  exists e saved,
    demo_remove_watermark (E:=small_externals)
      (D:=small_demo [("webvid/short.mp4", Float two_channel_1x2);
                      ("webvid/a.mp4", Float gray_2x2)]%string)
      "webvid/*.mp4" None = (saved, Raise e) /\
    Forall2
      (demo_output (E:=small_externals)
         (D:=small_demo [("webvid/short.mp4", Float two_channel_1x2);
                         ("webvid/a.mp4", Float gray_2x2)]%string) None)
      ["webvid/a.mp4"]%string saved.
Proof.
  destruct (remove_watermark_thwc_channels (E:=small_externals)
              (OK:=small_externals_ok) numpy (Float two_channel_1x2)
              (t:=1) (h:=1) (w:=2) (c:=2) (Ht:=2) (Wt:=2))
    as [e He]; try lia; [exact small_template_valid|exact two_channel_1x2_rect|].
  exists e.
  apply (demo_stops_at_first_failure (E:=small_externals)
           (D:=small_demo [("webvid/short.mp4", Float two_channel_1x2);
                           ("webvid/a.mp4", Float gray_2x2)]%string)
           "webvid/*.mp4" None ["webvid/a.mp4"]%string []
           "webvid/short.mp4" (e:=e)).
  - reflexivity.
  - intros q [<-|[]]. exact small_thwc_returns.
  - exact He.
Defined.

Lemma demo_torch_device_fails_witness :
  exists e,
    demo_remove_watermark (E:=externals_with_asset (Float transparent_1x3))
      (D:=small_demo [("webvid/a.mp4", Float gray_2x1)]%string)
      "webvid/*.mp4" (Some "cpu"%string) = ([], Raise e).
Proof.
  apply (demo_torch_device_fails
           (E:=externals_with_asset (Float transparent_1x3))
           (D:=small_demo [("webvid/a.mp4", Float gray_2x1)]%string)
           (OK:=externals_with_asset_ok (Float transparent_1x3))
           "webvid/*.mp4" "cpu" (p:="webvid/a.mp4"%string) (rest:=[])
           (t:=1) (h:=2) (w:=1) (Ht:=1) (Wt:=3));
    try lia; [reflexivity|exact gray_2x1_rect|exact transparent_1x3_valid].
Defined.

Lemma recover_background_single_channel_witness :
  exists out,
    recover_background (Array numpy one_channel_1x2) (Array numpy patch_1x2) =
      Ok (Array numpy out) /\
    rect4 1 1 2 3 out /\
    forall i y x k, i < 1 -> y < 1 -> x < 2 -> k < 3 ->
      at4 NaN out i y x k =
      recover1 (at4 NaN one_channel_1x2 i y x 0) (at3 NaN patch_1x2 y x k)
        (alpha_at patch_1x2 y x).
Proof.
  exact (recover_background_single_channel numpy one_channel_1x2_rect
           patch_1x2_rect).
Defined.
